(** * Smart-Home-Automation-API: validated device control, verified

    A shallow embedding of [home/views.py], [home/utils/logger.py],
    [home/utils/gemini.py] and [home/models.py], followed by the properties
    of the command pipeline (validation, action applier, dispatch, audit
    log, interpretation of the language-service reply).

    Conventions of the embedding:
    - Python text is a [string]; a character is a code point below 256.
    - A value that reaches the views from a JSON body is a [value]
      (None, bool, int, float, str, list, dict).
    - A Python float is a binary64 number, [spec_float] with precision 53
      and exponent bound 1024; [float(...)], [str(...)] and truthiness are
      the builtins of the language and are written out below.
    - The database is a [world]: the device rows, the log rows and the list
      of ORM calls issued so far.  Code that may raise returns an [outcome]
      together with the world it leaves behind. *)

From Stdlib Require Import ZArith QArith List String Ascii Bool Lia.
From Stdlib Require Import DecimalString.
From Stdlib Require Import Floats.SpecFloat.
Import ListNotations.

Local Open Scope string_scope.
Local Open Scope Z_scope.

Set Warnings "-register-all".

(* ===================================================================== *)
(** * Python text                                                         *)
(* ===================================================================== *)

Module Text.

Definition code (c : ascii) : Z := Z.of_N (N_of_ascii c).
Definition chr (n : Z) : ascii := ascii_of_N (Z.to_N n).

(** [str.isspace] on one character, which is also what [\s] matches in
    a [re] pattern over [str]. *)
Definition isspace (c : ascii) : bool :=
  let n := code c in
  ((9 <=? n) && (n <=? 13)) || ((28 <=? n) && (n <=? 32))
  || (n =? 133) || (n =? 160).

Definition isdigit (c : ascii) : bool :=
  let n := code c in (48 <=? n) && (n <=? 57).

(** [str.isprintable] on one character. *)
Definition isprintable (c : ascii) : bool :=
  let n := code c in
  negb ((n <? 32) || ((127 <=? n) && (n <=? 160)) || (n =? 173)).

(** [str.lower] on one character. *)
Definition lower_char (c : ascii) : ascii :=
  let n := code c in
  if ((65 <=? n) && (n <=? 90))
     || ((192 <=? n) && (n <=? 222) && negb (n =? 215))
  then chr (n + 32) else c.

Fixpoint lower (s : string) : string :=
  match s with
  | EmptyString => EmptyString
  | String c s' => String (lower_char c) (lower s')
  end.

Fixpoint lstrip_by (sp : ascii -> bool) (s : string) : string :=
  match s with
  | EmptyString => EmptyString
  | String c s' => if sp c then lstrip_by sp s' else s
  end.

Fixpoint rstrip_by (sp : ascii -> bool) (s : string) : string :=
  match s with
  | EmptyString => EmptyString
  | String c s' =>
      match rstrip_by sp s' with
      | EmptyString => if sp c then EmptyString else String c EmptyString
      | r => String c r
      end
  end.

Definition lstrip := lstrip_by isspace.
Definition rstrip := rstrip_by isspace.

(** [str.strip()] *)
Definition strip (s : string) : string := lstrip (rstrip s).

Fixpoint drop (n : nat) (s : string) : string :=
  match n, s with
  | O, _ => s
  | S _, EmptyString => EmptyString
  | S n', String _ s' => drop n' s'
  end.

(** [s.startswith(lit)] *)
Fixpoint startswith (lit s : string) : bool :=
  match lit, s with
  | EmptyString, _ => true
  | String _ _, EmptyString => false
  | String a lit', String b s' => Ascii.eqb a b && startswith lit' s'
  end.

Fixpoint repeat_char (c : ascii) (n : nat) : string :=
  match n with
  | O => EmptyString
  | S n' => String c (repeat_char c n')
  end.

Fixpoint all_chars (p : ascii -> bool) (s : string) : bool :=
  match s with
  | EmptyString => true
  | String c s' => p c && all_chars p s'
  end.

Fixpoint mem_char (c : ascii) (s : string) : bool :=
  match s with
  | EmptyString => false
  | String d s' => Ascii.eqb c d || mem_char c s'
  end.

(** [", ".join(parts)] and its like. *)
Fixpoint join (sep : string) (parts : list string) : string :=
  match parts with
  | [] => EmptyString
  | [p] => p
  | p :: rest => p ++ sep ++ join sep rest
  end.

(** [str(n)] for an int. *)
Definition of_Z (z : Z) : string := NilZero.string_of_int (Z.to_int z).

Definition hex_digit (n : Z) : ascii :=
  if n <? 10 then chr (48 + n) else chr (87 + n).

End Text.

(* ===================================================================== *)
(** * Python floats                                                       *)
(* ===================================================================== *)

Module PyFloat.

Definition prec : Z := 53.
Definition emax : Z := 1024.

Definition float : Type := spec_float.

Definition nan : float := S754_nan.
Definition inf (neg : bool) : float := S754_infinity neg.

Definition signed (s : bool) (m : positive) : Z :=
  if s then Zneg m else Zpos m.

(** The binary64 number nearest to [n / d] (ties to even), for
    [0 <= n] and [0 < d], with sign [neg].  The quotient is taken with
    at least 64 significant bits and a sticky bit, then rounded once. *)
Definition nearest (neg : bool) (n d : Z) : float :=
  let k := Z.max 0 (Z.log2 d - Z.log2 n + 64) in
  let num := n * 2 ^ k in
  let q := num / d in
  let sticky := if num mod d =? 0 then 0 else 1 in
  let m := 2 * q + sticky in
  binary_normalize prec emax (if neg then - m else m) (- (k + 1)) neg.

(** Nearest binary64 number to [m * 10^e], for [0 <= m]. *)
Definition of_decimal (neg : bool) (m e : Z) : float :=
  if 0 <=? e then nearest neg (m * 10 ^ e) 1 else nearest neg m (10 ^ (- e)).

(** [float(n)] for an int: [None] is OverflowError. *)
Definition of_int (z : Z) : option float :=
  match binary_normalize prec emax z 0 false with
  | S754_infinity _ => None
  | f => Some f
  end.

(** Comparison of a float with an int, as the interpreter does it: on
    the exact values, unordered for NaN. *)
Definition compare_int (f : float) (z : Z) : option comparison :=
  match f with
  | S754_nan => None
  | S754_infinity s => Some (if s then Lt else Gt)
  | S754_zero _ => Some (0 ?= z)
  | S754_finite s m e =>
      Some (if 0 <=? e then signed s m * 2 ^ e ?= z
            else signed s m ?= z * 2 ^ (- e))
  end.

(** [f < z] and [f > z] *)
Definition lt_int (f : float) (z : Z) : bool :=
  match compare_int f z with Some Lt => true | _ => false end.
Definition gt_int (f : float) (z : Z) : bool :=
  match compare_int f z with Some Gt => true | _ => false end.

(** [bool(f)] *)
Definition truthy (f : float) : bool :=
  match f with S754_zero _ => false | _ => true end.

(** The number a float denotes, when it denotes one. *)
Definition to_Q (f : float) : option Q :=
  match f with
  | S754_zero _ => Some (inject_Z 0)
  | S754_finite s m e =>
      Some (if 0 <=? e then inject_Z (signed s m * 2 ^ e)
            else Qmake (signed s m) (Z.to_pos (2 ^ (- e))))
  | _ => None
  end.

(** ** [float(s)] for a str *)

Definition float_space (c : ascii) : bool :=
  let n := Text.code c in
  ((9 <=? n) && (n <=? 13)) || (n =? 32) || (n =? 133) || (n =? 160).

Fixpoint underscores_ok (prev : ascii) (s : string) : bool :=
  match s with
  | EmptyString => negb (Ascii.eqb prev "_")
  | String c s' =>
      (if Ascii.eqb c "_" then Text.isdigit prev
       else if Ascii.eqb prev "_" then Text.isdigit c else true)
      && underscores_ok c s'
  end.

Fixpoint remove_underscores (s : string) : string :=
  match s with
  | EmptyString => EmptyString
  | String c s' =>
      if Ascii.eqb c "_" then remove_underscores s'
      else String c (remove_underscores s')
  end.

(** Leading decimal digits of [s], as the number they spell after
    [acc], their count, and the rest of [s]. *)
Fixpoint digits (acc : Z) (count : Z) (s : string) : Z * Z * string :=
  match s with
  | String c s' =>
      if Text.isdigit c then digits (10 * acc + (Text.code c - 48)) (count + 1) s'
      else (acc, count, s)
  | EmptyString => (acc, count, s)
  end.

Definition parse_exponent (s : string) : option Z :=
  match s with
  | EmptyString => Some 0
  | String c s' =>
      if Ascii.eqb c "e" || Ascii.eqb c "E" then
        let '(neg, s'') :=
          match s' with
          | String "-" t => (true, t)
          | String "+" t => (false, t)
          | _ => (false, s')
          end in
        match digits 0 0 s'' with
        | (x, n, EmptyString) =>
            if 0 <? n then Some (if neg then - x else x) else None
        | _ => None
        end
      else None
  end.

Definition parse_decimal (neg : bool) (s : string) : option float :=
  let '(ip, ni, s1) := digits 0 0 s in
  let '(m, nf, s2) :=
    match s1 with
    | String "." t => let '(m, nf, r) := digits ip 0 t in (m, nf, r)
    | _ => (ip, 0, s1)
    end in
  if 0 <? ni + nf then
    match parse_exponent s2 with
    | Some x => Some (of_decimal neg m (x - nf))
    | None => None
    end
  else None.

(** [None] is ValueError. *)
Definition of_string (s : string) : option float :=
  if underscores_ok "000" s then
    let t := remove_underscores
               (Text.lstrip_by float_space (Text.rstrip_by float_space s)) in
    let '(neg, u) :=
      match t with
      | String "-" r => (true, r)
      | String "+" r => (false, r)
      | _ => (false, t)
      end in
    let l := Text.lower u in
    if String.eqb l "inf" || String.eqb l "infinity" then Some (inf neg)
    else if String.eqb l "nan" then Some nan
    else parse_decimal neg u
  else None.

(** ** [repr(f)]: the shortest decimal that reads back as [f] *)

(** [10^k <= a / b], for positive [a] and [b]. *)
Definition pow10_le (a b k : Z) : bool :=
  if 0 <=? k then 10 ^ k * b <=? a else b <=? a * 10 ^ (- k).

(** The [k] with [10^(k-1) <= a / b < 10^k]. *)
Definition decimal_point (a b : Z) : Z :=
  let t := (Z.log2 a - Z.log2 b - 1) * 30103 / 100000 - 1 in
  if pow10_le a b (t + 3) then t + 4
  else if pow10_le a b (t + 2) then t + 3
  else if pow10_le a b (t + 1) then t + 2
  else t + 1.

(** With [n] digits: the candidates below and above [a / b], kept when
    they read back as [target]; the nearer one when both do. *)
Definition candidate (target : float) (a b k n : Z) : option (Z * Z) :=
  let p := n - k in
  let A := if 0 <=? p then a * 10 ^ p else a in
  let B := if 0 <=? p then b else b * 10 ^ (- p) in
  let lo := A / B in
  let hi := lo + 1 in
  let back c :=
    match of_decimal false c (- p), target with
    | S754_finite _ m1 e1, S754_finite _ m2 e2 =>
        Pos.eqb m1 m2 && (e1 =? e2)
    | _, _ => false
    end in
  let ok_lo := back lo in
  let ok_hi := negb (A mod B =? 0) && back hi in
  if ok_lo && ok_hi then
    match 2 * A ?= (2 * lo + 1) * B with
    | Lt => Some (lo, p)
    | Gt => Some (hi, p)
    | Eq => Some (if Z.even lo then lo else hi, p)
    end
  else if ok_lo then Some (lo, p)
  else if ok_hi then Some (hi, p)
  else None.

Fixpoint shortest (fuel : nat) (target : float) (a b k n : Z) : Z * Z :=
  match fuel with
  | O => let p := n - k in
         ((if 0 <=? p then a * 10 ^ p / b else a / (b * 10 ^ (- p))), p)
  | S fuel' =>
      match candidate target a b k n with
      | Some r => r
      | None => shortest fuel' target a b k (n + 1)
      end
  end.

Fixpoint strip_zeros (fuel : nat) (c : Z) : Z :=
  match fuel with
  | O => c
  | S fuel' => if (c mod 10 =? 0) && negb (c =? 0)
               then strip_zeros fuel' (c / 10) else c
  end.

Definition two_digits (x : Z) : string :=
  if x <? 10 then "0" ++ Text.of_Z x else Text.of_Z x.

(** Layout of the digit string [ds] with its decimal point after
    [decpt] digits, in the style of [repr]. *)
Definition layout (ds : string) (decpt : Z) : string :=
  let nd := Z.of_nat (String.length ds) in
  if (decpt <=? -4) || (16 <? decpt) then
    let x := decpt - 1 in
    let mant :=
      match ds with
      | String d EmptyString => ds
      | String d rest => String d ("." ++ rest)
      | EmptyString => ds
      end in
    mant ++ "e" ++ (if x <? 0 then "-" else "+") ++ two_digits (Z.abs x)
  else if decpt <=? 0 then
    "0." ++ Text.repeat_char "0" (Z.to_nat (- decpt)) ++ ds
  else if nd <=? decpt then
    ds ++ Text.repeat_char "0" (Z.to_nat (decpt - nd)) ++ ".0"
  else
    String.substring 0 (Z.to_nat decpt) ds ++ "."
    ++ Text.drop (Z.to_nat decpt) ds.

Definition repr (f : float) : string :=
  match f with
  | S754_nan => "nan"
  | S754_infinity s => if s then "-inf" else "inf"
  | S754_zero s => if s then "-0.0" else "0.0"
  | S754_finite s m e =>
      let a := if 0 <=? e then Zpos m * 2 ^ e else Zpos m in
      let b := if 0 <=? e then 1 else 2 ^ (- e) in
      let k := decimal_point a b in
      let '(c, p) := shortest 17 (nearest false a b) a b k 1 in
      let len := Z.of_nat (String.length (Text.of_Z c)) in
      let ds := Text.of_Z (strip_zeros 400 c) in
      (if s then "-" else "") ++ layout ds (len - p)
  end.

End PyFloat.

(* ===================================================================== *)
(** * Python values, exceptions and effects                               *)
(* ===================================================================== *)

Module Py.

(** What [json] decoding produces, and so what a request body or the
    language service can hand to the views. *)
Inductive value : Type :=
| VNone
| VBool (b : bool)
| VInt (z : Z)
| VFloat (f : PyFloat.float)
| VStr (s : string)
| VList (items : list value)
| VDict (entries : list (string * value)).

Definition dict : Type := list (string * value).

Inductive exn : Type :=
| ValueError
| TypeError
| OverflowError
| Http404
| DoesNotExist
| MultipleObjectsReturned
| IntegrityError.

Definition exn_eqb (a b : exn) : bool :=
  match a, b with
  | ValueError, ValueError | TypeError, TypeError
  | OverflowError, OverflowError | Http404, Http404
  | DoesNotExist, DoesNotExist
  | MultipleObjectsReturned, MultipleObjectsReturned
  | IntegrityError, IntegrityError => true
  | _, _ => false
  end.

Inductive outcome (A : Type) : Type :=
| Returns (a : A)
| Raises (e : exn).
Arguments Returns {A} a.
Arguments Raises {A} e.

(** [v is not None] *)
Definition is_not_None (v : value) : bool :=
  match v with VNone => false | _ => true end.

(** [v == s] for a str literal [s] *)
Definition eq_str (v : value) (s : string) : bool :=
  match v with VStr t => String.eqb t s | _ => false end.

(** [bool(v)] *)
Definition truthy (v : value) : bool :=
  match v with
  | VNone => false
  | VBool b => b
  | VInt z => negb (z =? 0)
  | VFloat f => PyFloat.truthy f
  | VStr s => negb (String.eqb s EmptyString)
  | VList l => match l with [] => false | _ => true end
  | VDict d => match d with [] => false | _ => true end
  end.

Definition float_of_int (z : Z) : outcome PyFloat.float :=
  match PyFloat.of_int z with
  | Some f => Returns f
  | None => Raises OverflowError
  end.

(** [float(v)] *)
Definition float (v : value) : outcome PyFloat.float :=
  match v with
  | VBool b => float_of_int (Z.b2z b)
  | VInt z => float_of_int z
  | VFloat f => Returns f
  | VStr s =>
      match PyFloat.of_string s with
      | Some f => Returns f
      | None => Raises ValueError
      end
  | VNone | VList _ | VDict _ => Raises TypeError
  end.

Definition quote : ascii := Text.chr 39.
Definition dquote : ascii := Text.chr 34.
Definition backslash : ascii := Text.chr 92.

Definition escape_char (q c : ascii) : string :=
  let n := Text.code c in
  if Ascii.eqb c q || Ascii.eqb c backslash then String backslash (String c EmptyString)
  else if n =? 9 then String backslash "t"
  else if n =? 10 then String backslash "n"
  else if n =? 13 then String backslash "r"
  else if Text.isprintable c then String c EmptyString
  else String backslash
         (String "x" (String (Text.hex_digit (n / 16))
                        (String (Text.hex_digit (n mod 16)) EmptyString))).

Fixpoint escape (q : ascii) (s : string) : string :=
  match s with
  | EmptyString => EmptyString
  | String c s' => escape_char q c ++ escape q s'
  end.

(** [repr(s)] for a str *)
Definition repr_str (s : string) : string :=
  let q := if Text.mem_char quote s && negb (Text.mem_char dquote s)
           then dquote else quote in
  String q (escape q s ++ String q EmptyString).

(** [repr(v)] *)
Fixpoint repr (v : value) : string :=
  match v with
  | VNone => "None"
  | VBool b => if b then "True" else "False"
  | VInt z => Text.of_Z z
  | VFloat f => PyFloat.repr f
  | VStr s => repr_str s
  | VList l => "[" ++ Text.join ", " (map repr l) ++ "]"
  | VDict d =>
      "{" ++ Text.join ", "
               (map (fun kv => repr_str (fst kv) ++ ": " ++ repr (snd kv)) d)
      ++ "}"
  end.

(** [str(v)], which is also what an f-string substitutes *)
Definition str (v : value) : string :=
  match v with VStr s => s | _ => repr v end.

(** [d.get(k)] and [k in d] *)
Fixpoint get (d : dict) (k : string) : value :=
  match d with
  | [] => VNone
  | (k', v) :: d' => if String.eqb k' k then v else get d' k
  end.

Fixpoint contains (d : dict) (k : string) : bool :=
  match d with
  | [] => false
  | (k', _) :: d' => String.eqb k' k || contains d' k
  end.

(** ** State and exceptions

    A computation over a state [S] returns or raises, and in both cases
    leaves a state behind: what was written before an exception stays
    written. *)
Definition M (S A : Type) : Type := S -> outcome A * S.

Definition ret {S A} (a : A) : M S A := fun s => (Returns a, s).

Definition raise {S A} (e : exn) : M S A := fun s => (Raises e, s).

Definition bind {S A B} (c : M S A) (k : A -> M S B) : M S B :=
  fun s =>
    match c s with
    | (Returns a, s') => k a s'
    | (Raises e, s') => (Raises e, s')
    end.

Definition lift {S A} (o : outcome A) : M S A := fun s => (o, s).

Definition gets {S A} (f : S -> A) : M S A := fun s => (Returns (f s), s).

Definition modify {S} (f : S -> S) : M S unit := fun s => (Returns tt, f s).

(** [try: c  except e: handler] *)
Definition try_except {S A} (c : M S A) (e : exn) (handler : M S A) : M S A :=
  fun s =>
    match c s with
    | (Raises e', s') =>
        if exn_eqb e e' then handler s' else (Raises e', s')
    | r => r
    end.

End Py.

Notation "x <- c ;; k" := (Py.bind c (fun x => k))
  (at level 61, c at next level, right associativity).
Notation "' pat <- c ;; k" := (Py.bind c (fun x => match x with pat => k end))
  (at level 61, pat pattern, c at next level, right associativity).
Notation "c ;;; k" := (Py.bind c (fun _ => k))
  (at level 61, right associativity).

(* ===================================================================== *)
(** * home/models.py                                                      *)
(* ===================================================================== *)

(** [class Device(models.Model)]: a row and, in a view, the object read
    from it.  [id] is the primary key, [user] the key of the owner. *)
Module Device.
Record t : Type := mk {
  id : Z;
  user : Z;
  name : string;
  device_type : string;
  status : string
}.

Definition set_status (d : t) (s : string) : t :=
  {| id := id d; user := user d; name := name d;
     device_type := device_type d; status := s |}.
End Device.

(** [class Log(models.Model)]: [device] is the key of the device row,
    [value] the nullable FloatField.  The [auto_now_add] timestamp is left
    out; rows are kept in the order of their creation. *)
Module Log.
Record t : Type := mk {
  device : Z;
  action : string;
  value : option PyFloat.float
}.
End Log.

(** The ORM calls the views and the logger make. *)
Module Orm.
Import Py.

Inductive query : Type :=
| SelectDevice (pk : Z) (owner : option Z)
| SelectDeviceByName (key : value) (owner : Z)
| SaveDevice (pk : Z)
| InsertLog (device : Z).

Record world : Type := mkWorld {
  devices : list Device.t;
  logs : list Log.t;
  queries : list query
}.

Definition issue (q : query) : M world unit :=
  modify (fun w => {| devices := devices w; logs := logs w;
                      queries := queries w ++ [q] |}).

(** [Model.objects.get(...)] over the rows that satisfy the lookup *)
Definition get_one (rows : list Device.t) (missing : exn) : M world Device.t :=
  match rows with
  | [] => raise missing
  | [d] => ret d
  | _ => raise MultipleObjectsReturned
  end.

(** [get_object_or_404(Device, pk=pk, user=user)] *)
Definition get_object_or_404 (pk owner : Z) : M world Device.t :=
  issue (SelectDevice pk (Some owner)) ;;;
  rows <- gets (fun w =>
            filter (fun d => (Device.id d =? pk) && (Device.user d =? owner))
                   (devices w)) ;;
  get_one rows Http404.

(** [Device.objects.get(id=device_id)] *)
Definition objects_get (device_id : Z) : M world Device.t :=
  issue (SelectDevice device_id None) ;;;
  rows <- gets (fun w => filter (fun d => Device.id d =? device_id) (devices w)) ;;
  get_one rows DoesNotExist.

(** The row with the least primary key, which is what [.first()] takes
    from a queryset that has no ordering of its own. *)
Fixpoint first (rows : list Device.t) : option Device.t :=
  match rows with
  | [] => None
  | d :: rest =>
      match first rest with
      | Some d' => if Device.id d' <? Device.id d then Some d' else Some d
      | None => Some d
      end
  end.

(** [device.save()]: the row of that key is overwritten, or added when
    there is none. *)
Definition write_row (d : Device.t) (rows : list Device.t) : list Device.t :=
  if existsb (fun r => Device.id r =? Device.id d) rows
  then map (fun r => if Device.id r =? Device.id d then d else r) rows
  else rows ++ [d].

Definition save : M (Device.t * world) unit :=
  modify (fun '(d, w) =>
            (d, {| devices := write_row d (devices w); logs := logs w;
                   queries := queries w ++ [SaveDevice (Device.id d)] |})).

(** What a FloatField stores for [v]. *)
Definition float_field (v : value) : outcome (option PyFloat.float) :=
  match v with
  | VNone => Returns None
  | _ => match float v with
         | Returns f => Returns (Some f)
         | Raises e => Raises e
         end
  end.

(** What a CharField that is not nullable stores for [v]. *)
Definition char_field (v : value) : outcome string :=
  match v with
  | VNone => Raises IntegrityError
  | _ => Returns (str v)
  end.

(** [Log.objects.create(device=device, action=action, value=value)] *)
Definition log_create (device : Device.t) (action value : value) : M world unit :=
  a <- lift (char_field action) ;;
  f <- lift (float_field value) ;;
  modify (fun w =>
            {| devices := devices w;
               logs := logs w ++ [ {| Log.device := Device.id device;
                                      Log.action := a;
                                      Log.value := f |} ];
               queries := queries w ++ [InsertLog (Device.id device)] |}).

(** Run a computation on a device object and hand the object back. *)
Definition with_object {A} (d : Device.t) (c : M (Device.t * world) A)
  : M world (A * Device.t) :=
  fun w =>
    match c (d, w) with
    | (Returns a, (d', w')) => (Returns (a, d'), w')
    | (Raises e, (_, w')) => (Raises e, w')
    end.

End Orm.

(* ===================================================================== *)
(** * home/utils/logger.py                                                *)
(* ===================================================================== *)

Module Logger.
Import Py Orm.

Definition log_action (device_id : Z) (action value : value) : M world unit :=
  try_except
    (device <- objects_get device_id ;;
     log_create device action value)
    DoesNotExist
    (ret tt).

End Logger.

(* ===================================================================== *)
(** * home/utils/gemini.py                                                *)
(* ===================================================================== *)

Module Gemini.
Import Py.

(** [re.sub(lit + r"\s*", "", s)] for a non-empty literal [lit]: at each
    position, leftmost first, an occurrence of [lit] is removed together
    with all the whitespace that follows it, and the scan goes on after
    the removed part. *)
Fixpoint sub_fuel (lit : string) (fuel : nat) (s : string) : string :=
  match fuel with
  | O => s
  | S fuel' =>
      if Text.startswith lit s
      then sub_fuel lit fuel' (Text.lstrip (Text.drop (String.length lit) s))
      else match s with
           | EmptyString => EmptyString
           | String c s' => String c (sub_fuel lit fuel' s')
           end
  end.

Definition re_sub (lit s : string) : string :=
  sub_fuel lit (S (String.length s)) s.

Fixpoint upto_close (s : string) : option string :=
  match s with
  | EmptyString => None
  | String c s' =>
      if Ascii.eqb c "}" then Some "}"
      else match upto_close s' with
           | Some m => Some (String c m)
           | None => None
           end
  end.

(** [re.search(r"\{[^}]*\}", s, re.DOTALL)], as [match.group(0)]: from
    the first opening brace to the first closing brace after it. *)
Fixpoint re_search (s : string) : option string :=
  match s with
  | EmptyString => None
  | String c s' =>
      if Ascii.eqb c "{" then
        match upto_close s' with
        | Some m => Some (String c m)
        | None => None
        end
      else re_search s'
  end.

Definition fence_json : string := "```json".
Definition fence : string := "```".

(** [cleaned_text] of the reply [text] *)
Definition cleaned_text (text : string) : string :=
  let raw_text := Text.strip text in
  let cleaned := re_sub fence_json raw_text in
  let cleaned := re_sub fence cleaned in
  Text.strip cleaned.

Definition quoted (s : string) : string :=
  String dquote (s ++ String dquote EmptyString).

(** The actions rule 4 of the prompt lists. *)
Definition prompt_actions : list string :=
  ["turn_on"; "turn_off"; "set_temperature"; "set_brightness"; "set_speed"].

Definition nl : string := String (Text.chr 10) EmptyString.

Definition prompt (command_text : value) : string :=
  "You are a smart home automation assistant. Parse this command and return ONLY a JSON object."
  ++ nl ++ nl ++ "Rules:"
  ++ nl ++ "1. Return ONLY valid JSON, no markdown, no extra text"
  ++ nl ++ "2. Required: " ++ quoted "device_name" ++ " and " ++ quoted "action"
  ++ nl ++ "3. Optional: " ++ quoted "value" ++ " (number)"
  ++ nl ++ "4. Actions: " ++ Text.join ", " prompt_actions
  ++ nl ++ nl ++ "Command: " ++ quoted (str command_text)
  ++ nl ++ nl ++ "Valid JSON examples:"
  ++ nl ++ "{" ++ quoted "device_name" ++ ": " ++ quoted "Living Room Light"
  ++ ", " ++ quoted "action" ++ ": " ++ quoted "turn_on" ++ "}"
  ++ nl ++ "{" ++ quoted "device_name" ++ ": " ++ quoted "AC"
  ++ ", " ++ quoted "action" ++ ": " ++ quoted "set_temperature"
  ++ ", " ++ quoted "value" ++ ": 22}"
  ++ nl ++ nl ++ "Return JSON now:".

Section Service.

(** The environment variable, [None] when it is not set. *)
Variable GEMINI_API_KEY : option string.

(** [model.generate_content(prompt).text]: the text of the reply, or
    [None] when the call or the access to the text raises. *)
Variable generate_content : string -> option string.

(** [json.loads] on a text that starts with an opening brace: the
    decoded object, or [None] when decoding raises. *)
Variable json_loads : string -> option dict.

(** The part of [parse_command_with_gemini] that follows the call of
    the service, on the text of its reply. *)
Definition interpret (text : string) : option dict :=
  match re_search (cleaned_text text) with
  | Some json_text =>
      match json_loads json_text with
      | Some parsed =>
          if contains parsed "device_name" && contains parsed "action"
          then Some parsed
          else None
      | None => None
      end
  | None => None
  end.

Definition parse_command_with_gemini (command_text : value) : option dict :=
  match GEMINI_API_KEY with
  | None => None
  | Some key =>
      if String.eqb key EmptyString then None
      else match generate_content (prompt command_text) with
           | Some text => interpret text
           | None => None
           end
  end.

End Service.

End Gemini.

(* ===================================================================== *)
(** * home/views.py                                                       *)
(* ===================================================================== *)

Module Request.
Record t : Type := mk { user : Z; data : Py.dict }.
End Request.

Module Response.
Record t : Type := mk { data : Py.dict; status : Z }.
End Response.

Module Views.
Import Py Orm Logger.

Record limits : Type := mkLimits { min : Z; max : Z; unit : string }.

Definition celsius : string := String (Text.chr 176) "C".

Definition DEVICE_LIMITS : list (string * limits) :=
  [ ("thermostat", {| min := 16; max := 32; unit := celsius |});
    ("ac", {| min := 16; max := 30; unit := celsius |});
    ("heater", {| min := 18; max := 35; unit := celsius |});
    ("fan", {| min := 0; max := 5; unit := "speed" |}) ].

Fixpoint lookup (table : list (string * limits)) (k : string) : option limits :=
  match table with
  | [] => None
  | (k', l) :: rest => if String.eqb k' k then Some l else lookup rest k
  end.

Definition validate_device_value (device : Device.t) (value : value)
  : outcome (bool * option string) :=
  let device_type := Text.lower (Device.device_type device) in
  match lookup DEVICE_LIMITS device_type with
  | Some limits =>
      let min_val := min limits in
      let max_val := max limits in
      let unit := unit limits in
      match float value with
      | Raises ValueError | Raises TypeError =>
          Returns (false, Some "Invalid value: must be a number")
      | Raises e => Raises e
      | Returns value =>
          if PyFloat.lt_int value min_val || PyFloat.gt_int value max_val
          then Returns (false,
                        Some (Device.name device ++ " " ++ unit
                              ++ " must be between " ++ Text.of_Z min_val
                              ++ " and " ++ Text.of_Z max_val))
          else Returns (true, None)
      end
  | None => Returns (true, None)
  end.

(** [device.status = s] *)
Definition assign_status (s : string) : M (Device.t * world) Datatypes.unit :=
  modify (fun '(d, w) => (Device.set_status d s, w)).

(** The branch shared by [set_temperature] and [set_speed]. *)
Definition set_value (value : value) : M (Device.t * world) (bool * option string) :=
  device <- gets fst ;;
  '(is_valid, error_msg) <- lift (validate_device_value device value) ;;
  if negb is_valid then ret (false, error_msg)
  else
    assign_status (str value) ;;;
    save ;;;
    ret (true, None).

(** [apply_device_action(device, action, value)]; the object [device]
    is the first component of the state. *)
Definition apply_device_action (action value : value)
  : M (Device.t * world) (bool * option string) :=
  if eq_str action "turn_on" then
    assign_status "on" ;;;
    save ;;;
    ret (true, None)
  else if eq_str action "turn_off" then
    assign_status "off" ;;;
    save ;;;
    ret (true, None)
  else if eq_str action "set_temperature" && is_not_None value then
    set_value value
  else if eq_str action "set_speed" && is_not_None value then
    set_value value
  else
    ret (false, Some "Invalid action or missing value").

Definition of_msg (m : option string) : value :=
  match m with Some s => VStr s | None => VNone end.

(** [DeviceViewSet.control]; [pk] is the integer the key in the URL
    spells. *)
Definition control (request : Request.t) (pk : Z) : M world Response.t :=
  device <- get_object_or_404 pk (Request.user request) ;;
  let action_type := get (Request.data request) "action" in
  let value := get (Request.data request) "value" in
  '(success, error_msg, device) <-
    with_object device (apply_device_action action_type value) ;;
  if negb success then
    ret {| Response.data := [("error", of_msg error_msg)];
           Response.status := 400 |}
  else
    log_action (Device.id device) action_type value ;;;
    ret {| Response.data :=
             [("message", VStr (Device.name device ++ " updated to "
                                ++ Device.status device));
              ("device", VStr (Device.name device));
              ("new_status", VStr (Device.status device))];
           Response.status := 200 |}.

Section Assistant.

Variable GEMINI_API_KEY : option string.
Variable generate_content : string -> option string.
Variable json_loads : string -> option dict.

(** The case-insensitive equality of the database, behind
    [name__iexact]: [iexact key name]. *)
Variable iexact : string -> string -> bool.

(** [name__iexact=key] on one name: a key that is None selects no
    row, any other key is matched as its text. *)
Definition name_iexact (key : value) (name : string) : bool :=
  is_not_None key && iexact (str key) name.

(** [Device.objects.filter(name__iexact=key, user=owner).first()] *)
Definition filter_first (key : value) (owner : Z) : M world (option Device.t) :=
  issue (SelectDeviceByName key owner) ;;;
  gets (fun w =>
          first (filter (fun d => name_iexact key (Device.name d)
                                  && (Device.user d =? owner))
                        (devices w))).

(** [AssistantCommandView.post] *)
Definition post (request : Request.t) : M world Response.t :=
  let command_text := get (Request.data request) "command" in
  if negb (truthy command_text) then
    ret {| Response.data := [("error", VStr "Missing command")];
           Response.status := 400 |}
  else
    match Gemini.parse_command_with_gemini
            GEMINI_API_KEY generate_content json_loads command_text with
    | None =>
        ret {| Response.data :=
                 [("error", VStr "Could not understand command. Please try again.")];
               Response.status := 400 |}
    | Some parsed =>
        if negb (match parsed with [] => false | _ => true end)
           || negb (contains parsed "device_name")
           || negb (contains parsed "action")
        then
          ret {| Response.data :=
                   [("error", VStr "Could not understand command. Please try again.")];
                 Response.status := 400 |}
        else
          let device_name := get parsed "device_name" in
          let action := get parsed "action" in
          let value := get parsed "value" in
          found <- filter_first device_name (Request.user request) ;;
          match found with
          | None =>
              ret {| Response.data :=
                       [("error", VStr ("Device '" ++ str device_name ++ "' not found"));
                        ("suggestion", VStr "Please check device name or add it first")];
                     Response.status := 404 |}
          | Some device =>
              '(success, error_msg, device) <-
                with_object device (apply_device_action action value) ;;
              if negb success then
                ret {| Response.data :=
                         [("error", of_msg error_msg);
                          ("command", command_text);
                          ("device", VStr (Device.name device))];
                       Response.status := 400 |}
              else
                log_action (Device.id device) action value ;;;
                ret {| Response.data :=
                         [("message", VStr (Device.name device ++ " updated successfully"));
                          ("device", VStr (Device.name device));
                          ("action", action);
                          ("value", if truthy value then value else VNone);
                          ("new_status", VStr (Device.status device));
                          ("command_understood", command_text)];
                       Response.status := 200 |}
          end
    end.

End Assistant.

End Views.


(* ===================================================================== *)
(** * Vocabulary of the statements, and the data of the examples         *)
(* ===================================================================== *)

Module Terms.
Import Py Orm Views.

(** A text made of whitespace only. *)
Abbreviation spaces s := (Text.all_chars Text.isspace s = true).

(** The text of the range error. *)
Definition range_error (device : Device.t) (l : limits) : string :=
  Device.name device ++ " " ++ unit l ++ " must be between "
  ++ Text.of_Z (min l) ++ " and " ++ Text.of_Z (max l).

(** The world after [device.save()]. *)
Definition saved (d : Device.t) (w : world) : world :=
  {| devices := write_row d (devices w); logs := logs w;
     queries := (queries w ++ [SaveDevice (Device.id d)])%list |}.

(** The action is set_temperature or set_speed and comes with a value. *)
Definition bears_value (action value : value) : bool :=
  (eq_str action "set_temperature" || eq_str action "set_speed")
  && is_not_None value.

(** The answer to a command that was not understood. *)
Definition not_understood : Response.t :=
  {| Response.data :=
       [("error", VStr "Could not understand command. Please try again.")];
     Response.status := 400 |}.

(** The reply [T] between a [```json] fence and a closing fence. *)
Definition fenced (ws1 T ws2 : string) : string :=
  Gemini.fence_json ++ ws1 ++ T ++ ws2 ++ Gemini.fence.

End Terms.

Module Fixtures.
Import Py Orm.

Definition light : Device.t :=
  {| Device.id := 1; Device.user := 1; Device.name := "Living Room Light";
     Device.device_type := "light"; Device.status := "off" |}.

Definition ac : Device.t :=
  {| Device.id := 2; Device.user := 1; Device.name := "AC";
     Device.device_type := "ac"; Device.status := "24" |}.

Definition fan : Device.t :=
  {| Device.id := 3; Device.user := 1; Device.name := "Fan";
     Device.device_type := "fan"; Device.status := "off" |}.

(** A device of another user. *)
Definition other : Device.t :=
  {| Device.id := 4; Device.user := 2; Device.name := "Kitchen Light";
     Device.device_type := "light"; Device.status := "on" |}.

Definition home : world :=
  {| devices := [light; ac; fan; other]; logs := []; queries := [] |}.

(** The float 20.0 *)
Definition twenty : PyFloat.float := S754_finite false 5629499534213120 (-48).

(** The float 0.0 *)
Definition zero : PyFloat.float := S754_zero false.

(** A key is set. *)
Definition api_key : option string := Some "key".

(** The object in the reply to "set the fan speed to 0". *)
Definition reply_fan_0 : string :=
  "{" ++ Gemini.quoted "device_name" ++ ": " ++ Gemini.quoted "fan" ++ ", "
  ++ Gemini.quoted "action" ++ ": " ++ Gemini.quoted "set_speed" ++ ", "
  ++ Gemini.quoted "value" ++ ": 0}".

(** The object in the reply to "turn on the kitchen light". *)
Definition reply_kitchen : string :=
  "{" ++ Gemini.quoted "device_name" ++ ": " ++ Gemini.quoted "kitchen light"
  ++ ", " ++ Gemini.quoted "action" ++ ": " ++ Gemini.quoted "turn_on" ++ "}".

(** An object that names no action, and a reply that holds it. *)
Definition object_no_action : string :=
  "{" ++ Gemini.quoted "device_name" ++ ": " ++ Gemini.quoted "fan" ++ "}".

Definition reply_no_action : string := "Sure! " ++ object_no_action.

(** A service that gives the same reply to every prompt. *)
Definition service (reply : string) (prompt : string) : option string :=
  Some reply.

(** What [json.loads] returns on the three objects above. *)
Definition loads (json_text : string) : option dict :=
  if String.eqb json_text reply_fan_0 then
    Some [("device_name", VStr "fan"); ("action", VStr "set_speed");
          ("value", VInt 0)]
  else if String.eqb json_text reply_kitchen then
    Some [("device_name", VStr "kitchen light"); ("action", VStr "turn_on")]
  else if String.eqb json_text object_no_action then
    Some [("device_name", VStr "fan")]
  else None.

(** Equality of names up to case. *)
Definition caseless (a b : string) : bool :=
  String.eqb (Text.lower a) (Text.lower b).

Definition command (text : string) (owner : Z) : Request.t :=
  {| Request.user := owner; Request.data := [("command", VStr text)] |}.

End Fixtures.


(* ===================================================================== *)
(** * More of home/views.py: the device viewset                          *)
(* ===================================================================== *)

Module DeviceViewSet.
Import Py Orm.

(** [get_queryset]: [Device.objects.filter(user=self.request.user)], as
    the rows it yields. *)
Definition get_queryset (request : Request.t) (w : world) : list Device.t :=
  filter (fun d => Device.user d =? Request.user request) (devices w).

(** The fields of a device the serializer hands on once it has checked
    the body: the owner is not among them, the status may be absent. *)
Record validated_data : Type := mkData {
  name : string;
  device_type : string;
  status : option string
}.

(** [perform_create]: [serializer.save(user=self.request.user)], which
    creates the row from the validated fields and that owner; a status
    that is absent is the default of the model, and [pk] is the key the
    database gives the row. *)
Definition perform_create (request : Request.t) (data : validated_data) (pk : Z)
  : M world Device.t :=
  let d := {| Device.id := pk;
              Device.user := Request.user request;
              Device.name := name data;
              Device.device_type := device_type data;
              Device.status := match status data with
                               | Some s => s
                               | None => "off"
                               end |} in
  modify (fun w => {| devices := devices w ++ [d]; logs := logs w;
                      queries := queries w ++ [SaveDevice pk] |}) ;;;
  ret d.

End DeviceViewSet.

(** More vocabulary for the statements. *)
Module Invariants.
Import Py Orm Views.

(** No two rows of the device table have the same primary key. *)
Definition unique_keys (w : world) : Prop :=
  NoDup (map Device.id (devices w)).

(** What of a device is not its status. *)
Definition frame (d : Device.t) : Z * Z * string * string :=
  (Device.id d, Device.user d, Device.name d, Device.device_type d).

(** The world once the call [q] is issued. *)
Definition issued (q : query) (w : world) : world :=
  {| devices := devices w; logs := logs w;
     queries := (queries w ++ [q])%list |}.

(** The answers of [control]. *)
Definition bad_request (m : option string) : Response.t :=
  {| Response.data := [("error", of_msg m)]; Response.status := 400 |}.

Definition updated (d : Device.t) : Response.t :=
  {| Response.data :=
       [("message", VStr (Device.name d ++ " updated to " ++ Device.status d));
        ("device", VStr (Device.name d));
        ("new_status", VStr (Device.status d))];
     Response.status := 200 |}.

(** The answers of [post]. *)
Definition missing_command : Response.t :=
  {| Response.data := [("error", VStr "Missing command")];
     Response.status := 400 |}.

Definition not_found (device_name : value) : Response.t :=
  {| Response.data :=
       [("error", VStr ("Device '" ++ str device_name ++ "' not found"));
        ("suggestion", VStr "Please check device name or add it first")];
     Response.status := 404 |}.

Definition rejected (m : option string) (command_text : value) (d : Device.t)
  : Response.t :=
  {| Response.data :=
       [("error", of_msg m);
        ("command", command_text);
        ("device", VStr (Device.name d))];
     Response.status := 400 |}.

Definition understood (d : Device.t) (action value command_text : value)
  : Response.t :=
  {| Response.data :=
       [("message", VStr (Device.name d ++ " updated successfully"));
        ("device", VStr (Device.name d));
        ("action", action);
        ("value", if truthy value then value else VNone);
        ("new_status", VStr (Device.status d));
        ("command_understood", command_text)];
     Response.status := 200 |}.

(** [lit in s] *)
Fixpoint occurs (lit s : string) : bool :=
  Text.startswith lit s
  || match s with
     | EmptyString => false
     | String _ s' => occurs lit s'
     end.

(** The text starts with a backtick. *)
Definition starts_with_backtick (s : string) : bool :=
  match s with String c _ => Ascii.eqb "`" c | EmptyString => false end.

(** The reply [T] between two plain fences. *)
Definition plain_fenced (ws1 T ws2 : string) : string :=
  Gemini.fence ++ ws1 ++ T ++ ws2 ++ Gemini.fence.

End Invariants.

(* ===================================================================== *)
(** * Properties                                                          *)
(* ===================================================================== *)

Module FloatFacts.
Import PyFloat.

(** The comparison with an int is the comparison of the numbers. *)
Lemma compare_int_to_Q (f : float) (q : Q) (z : Z) :
  to_Q f = Some q -> compare_int f z = Some (Qcompare q (inject_Z z)).
Proof.
  destruct f as [s | s | | s m e]; simpl; try discriminate.
  - intros [= <-]. unfold Qcompare; simpl. now rewrite Z.mul_1_r.
  - intros [= <-]. f_equal.
    destruct (0 <=? e) eqn:He.
    + unfold Qcompare; simpl. now rewrite !Z.mul_1_r.
    + apply Z.leb_gt in He.
      unfold Qcompare; simpl.
      rewrite Z.mul_1_r, Z2Pos.id; [reflexivity |].
      apply Z.pow_pos_nonneg; lia.
Qed.

Lemma lt_int_iff (f : float) (q : Q) (z : Z) :
  to_Q f = Some q -> lt_int f z = true <-> (q < inject_Z z)%Q.
Proof.
  intros H. unfold lt_int. rewrite (compare_int_to_Q _ _ z H), Qlt_alt.
  destruct (q ?= inject_Z z)%Q; split; congruence.
Qed.

Lemma gt_int_iff (f : float) (q : Q) (z : Z) :
  to_Q f = Some q -> gt_int f z = true <-> (inject_Z z < q)%Q.
Proof.
  intros H. unfold gt_int. rewrite (compare_int_to_Q _ _ z H).
  rewrite Qlt_alt, <- (Qcompare_antisym q (inject_Z z)).
  destruct (q ?= inject_Z z)%Q; simpl; split; congruence.
Qed.

Lemma in_range_iff (f : float) (q : Q) (lo hi : Z) :
  to_Q f = Some q ->
  lt_int f lo || gt_int f hi = false <-> (inject_Z lo <= q <= inject_Z hi)%Q.
Proof.
  intros H. rewrite orb_false_iff.
  split.
  - intros [H1 H2]. split; apply Qnot_lt_le; intros C.
    + apply (lt_int_iff f q lo H) in C. congruence.
    + apply (gt_int_iff f q hi H) in C. congruence.
  - intros [H1 H2]. split.
    + destruct (lt_int f lo) eqn:E; [| reflexivity].
      apply (lt_int_iff f q lo H) in E. exfalso. eapply Qlt_not_le; eauto.
    + destruct (gt_int f hi) eqn:E; [| reflexivity].
      apply (gt_int_iff f q hi H) in E. exfalso. eapply Qlt_not_le; eauto.
Qed.

End FloatFacts.


(** ** Facts about text *)
Module TextFacts.
Import Text Terms.

Lemma append_assoc (a b c : string) : (a ++ b) ++ c = a ++ b ++ c.
Proof. induction a as [| x a IH]; simpl; [reflexivity | now rewrite IH]. Qed.

Lemma length_append (a b : string) :
  String.length (a ++ b) = (String.length a + String.length b)%nat.
Proof. induction a as [| x a IH]; simpl; [reflexivity | now rewrite IH]. Qed.

Lemma all_chars_append (p : ascii -> bool) (a b : string) :
  all_chars p (a ++ b) = all_chars p a && all_chars p b.
Proof.
  induction a as [| x a IH]; simpl; [reflexivity |].
  now rewrite IH, andb_assoc.
Qed.

Lemma lstrip_spaces (a : string) : spaces a -> lstrip a = EmptyString.
Proof.
  induction a as [| x a IH]; simpl; [reflexivity |].
  intros H. apply andb_prop in H. destruct H as [Hx Ha].
  unfold lstrip in *. simpl. rewrite Hx. now apply IH.
Qed.

Lemma lstrip_app (a b : string) :
  lstrip (a ++ b) = if all_chars isspace a then lstrip b else lstrip a ++ b.
Proof.
  unfold lstrip. induction a as [| x a IH]; simpl; [reflexivity |].
  destruct (isspace x); simpl; [exact IH | reflexivity].
Qed.

Lemma lstrip_length (s : string) : (String.length (lstrip s) <= String.length s)%nat.
Proof.
  unfold lstrip. induction s as [| x s IH]; simpl; [lia |].
  destruct (isspace x); simpl; lia.
Qed.

Lemma rstrip_spaces (a : string) : spaces a -> rstrip a = EmptyString.
Proof.
  unfold rstrip. induction a as [| x a IH]; simpl; [reflexivity |].
  intros H. apply andb_prop in H. destruct H as [Hx Ha].
  now rewrite (IH Ha), Hx.
Qed.

Lemma rstrip_app_spaces (s a : string) : spaces a -> rstrip (s ++ a) = rstrip s.
Proof.
  intros Ha. induction s as [| x s IH]; simpl; [now apply rstrip_spaces |].
  unfold rstrip in *. simpl. now rewrite IH.
Qed.

(** A text is its right-stripped part followed by whitespace. *)
Lemma rstrip_split (s : string) : exists t, spaces t /\ s = rstrip s ++ t.
Proof.
  unfold rstrip. induction s as [| x s (t & Ht & IH)]; simpl.
  - now exists EmptyString.
  - destruct (rstrip_by isspace s) as [| y r] eqn:E.
    + simpl in IH. subst t.
      destruct (isspace x) eqn:Ex.
      * exists (String x s). simpl. now rewrite Ex, Ht.
      * exists s. now split.
    + exists t. split; [exact Ht |]. simpl. now rewrite IH at 1.
Qed.

(** A right-stripped text is empty or ends with a character that is not
    whitespace. *)
Lemma rstrip_not_spaces (s : string) :
  spaces (rstrip s) -> rstrip s = EmptyString.
Proof.
  unfold rstrip. induction s as [| x s IH]; simpl; [reflexivity |].
  destruct (rstrip_by isspace s) as [| y r] eqn:E.
  - destruct (isspace x) eqn:Ex; [reflexivity |]. simpl. now rewrite Ex.
  - intros H. simpl in H. apply andb_prop in H. destruct H as [_ H].
    simpl in IH. now specialize (IH H).
Qed.

Lemma rstrip_fixed_app (s t : string) :
  t <> EmptyString -> rstrip t = t -> rstrip (s ++ t) = s ++ t.
Proof.
  intros Hne Ht. unfold rstrip in *.
  induction s as [| x s IH]; simpl; [exact Ht |].
  rewrite IH. destruct (s ++ t) eqn:E; [| reflexivity].
  destruct s; simpl in E; [contradiction | discriminate].
Qed.

Lemma startswith_app (lit r : string) : startswith lit (lit ++ r) = true.
Proof.
  induction lit as [| a lit IH]; simpl; [now destruct r |].
  now rewrite Ascii.eqb_refl.
Qed.

Lemma startswith_split (lit s : string) :
  startswith lit s = true -> s = lit ++ drop (String.length lit) s.
Proof.
  revert s. induction lit as [| a lit IH]; intros s; simpl.
  - now destruct s.
  - destruct s as [| b s]; [discriminate |].
    intros H. apply andb_prop in H. destruct H as [Hab H].
    apply Ascii.eqb_eq in Hab. subst b. f_equal. now apply IH.
Qed.

Lemma drop_app (lit r : string) : drop (String.length lit) (lit ++ r) = r.
Proof. induction lit as [| a lit IH]; simpl; [now destruct r | exact IH]. Qed.

Lemma drop_length (n : nat) (s : string) :
  String.length (drop n s) = (String.length s - n)%nat.
Proof.
  revert s. induction n as [| n IH]; intros s; simpl.
  - lia.
  - destruct s as [| c s]; simpl; [reflexivity | apply IH].
Qed.

Lemma startswith_length (lit s : string) :
  startswith lit s = true -> (String.length lit <= String.length s)%nat.
Proof.
  intros H. rewrite (startswith_split _ _ H) at 1. rewrite length_append. lia.
Qed.

Lemma startswith_weaken (lit x y : string) :
  startswith lit x = true -> startswith lit (x ++ y) = true.
Proof.
  intros H. rewrite (startswith_split _ _ H), append_assoc.
  apply startswith_app.
Qed.

(** A literal found at the start of [x ++ y] starts [x], or is [x]
    followed by a non-empty start of [y]. *)
Lemma startswith_cases (lit x y : string) :
  startswith lit (x ++ y) = true ->
  startswith lit x = true
  \/ exists l2, l2 <> EmptyString /\ lit = x ++ l2 /\ startswith l2 y = true.
Proof.
  revert x. induction lit as [| a lit IH]; intros x H.
  - left. now destruct x.
  - destruct x as [| b x].
    + right. exists (String a lit). repeat split; [discriminate | exact H].
    + simpl in H. apply andb_prop in H. destruct H as [Hab H].
      destruct (IH x H) as [L | (l2 & Hne & -> & Hl2)].
      * left. simpl. now rewrite Hab.
      * right. exists l2. apply Ascii.eqb_eq in Hab. subst b. now repeat split.
Qed.

End TextFacts.

Module ViewFacts.
Import Py Orm Logger Views Terms.

Lemma validate_unknown (device : Device.t) (value : value) :
  lookup DEVICE_LIMITS (Text.lower (Device.device_type device)) = None ->
  validate_device_value device value = Returns (true, None).
Proof. unfold validate_device_value. now intros ->. Qed.

Lemma validate_known (device : Device.t) (value : value) (l : limits) (f : PyFloat.float) :
  lookup DEVICE_LIMITS (Text.lower (Device.device_type device)) = Some l ->
  float value = Returns f ->
  validate_device_value device value =
    if PyFloat.lt_int f (min l) || PyFloat.gt_int f (max l)
    then Returns (false, Some (range_error device l))
    else Returns (true, None).
Proof. unfold validate_device_value. now intros -> ->. Qed.

Lemma validate_not_a_number (device : Device.t) (value : value) (l : limits) :
  lookup DEVICE_LIMITS (Text.lower (Device.device_type device)) = Some l ->
  float value = Raises ValueError \/ float value = Raises TypeError ->
  validate_device_value device value =
    Returns (false, Some "Invalid value: must be a number").
Proof. unfold validate_device_value. now intros -> [-> | ->]. Qed.

Lemma set_value_run (device : Device.t) (w : world) (value : value) :
  set_value value (device, w) =
    match validate_device_value device value with
    | Returns (true, _) =>
        (Returns (true, None),
         (Device.set_status device (str value),
          saved (Device.set_status device (str value)) w))
    | Returns (false, e) => (Returns (false, e), (device, w))
    | Raises e => (Raises e, (device, w))
    end.
Proof.
  unfold set_value, bind, gets, lift; simpl.
  destruct (validate_device_value device value) as [[[] e] | e]; reflexivity.
Qed.

Lemma switch_run (device : Device.t) (w : world) (s : string) :
  (assign_status s ;;; save ;;; ret (true, @None string)) (device, w) =
    (Returns (true, None),
     (Device.set_status device s, saved (Device.set_status device s) w)).
Proof. reflexivity. Qed.

Lemma apply_run (device : Device.t) (w : world) (action value : value) :
  apply_device_action action value (device, w) =
    if eq_str action "turn_on" then
      (Returns (true, None),
       (Device.set_status device "on", saved (Device.set_status device "on") w))
    else if eq_str action "turn_off" then
      (Returns (true, None),
       (Device.set_status device "off", saved (Device.set_status device "off") w))
    else if bears_value action value then set_value value (device, w)
    else (Returns (false, Some "Invalid action or missing value"), (device, w)).
Proof.
  unfold apply_device_action, bears_value.
  destruct (eq_str action "turn_on") eqn:E1; [apply switch_run |].
  destruct (eq_str action "turn_off") eqn:E2; [apply switch_run |].
  destruct (eq_str action "set_temperature"), (eq_str action "set_speed"),
    (is_not_None value); reflexivity.
Qed.

Lemma eq_str_true (v : value) (s : string) : eq_str v s = true <-> v = VStr s.
Proof.
  destruct v; simpl; try (split; [discriminate | intros [=]]).
  rewrite String.eqb_eq. split; [now intros -> | now intros [= ->]].
Qed.

Lemma filter_both {A} (p q : A -> bool) (l : list A) :
  filter (fun x => p x && q x) l = filter q (filter p l).
Proof.
  induction l as [| x l IH]; simpl; [reflexivity |].
  destruct (p x); simpl; [destruct (q x) |]; now rewrite IH.
Qed.

Lemma filter_nonempty_exists {A} (p : A -> bool) (l : list A) (x : A) (r : list A) :
  filter p l = x :: r -> existsb p l = true.
Proof.
  intros H. apply existsb_exists. exists x.
  apply filter_In. rewrite H. now left.
Qed.

Lemma filter_replaced (d : Device.t) (rows : list Device.t) :
  filter (fun r => Device.id r =? Device.id d)
         (map (fun r => if Device.id r =? Device.id d then d else r) rows)
  = map (fun _ => d) (filter (fun r => Device.id r =? Device.id d) rows).
Proof.
  induction rows as [| r rows IH]; simpl; [reflexivity |].
  destruct (Device.id r =? Device.id d) eqn:E; simpl.
  - rewrite Z.eqb_refl. simpl. now rewrite IH.
  - rewrite E. exact IH.
Qed.

Lemma write_row_In (d r : Device.t) (rows : list Device.t) :
  In r (write_row d rows) -> In r rows \/ r = d.
Proof.
  unfold write_row. destruct (existsb _ rows).
  - intros H. apply in_map_iff in H. destruct H as (x & Hx & Hin).
    destruct (Device.id x =? Device.id d); subst; auto.
  - intros H. apply in_app_or in H. destruct H as [H | [H | []]]; auto.
Qed.

(** After [save], the row of the object's key is the object. *)
Lemma filter_write_row (d d0 : Device.t) (rows : list Device.t) :
  filter (fun r => Device.id r =? Device.id d) rows = [d0] ->
  filter (fun r => Device.id r =? Device.id d) (write_row d rows) = [d].
Proof.
  intros H. unfold write_row.
  rewrite (filter_nonempty_exists _ _ _ _ H), filter_replaced, H.
  reflexivity.
Qed.

Lemma get_object_or_404_run (pk owner : Z) (w : world) (device : Device.t) :
  filter (fun d => Device.id d =? pk) (devices w) = [device] ->
  Device.user device = owner ->
  get_object_or_404 pk owner w
    = (Returns device,
       {| devices := devices w; logs := logs w;
          queries := (queries w ++ [SelectDevice pk (Some owner)])%list |}).
Proof.
  intros H Hu.
  unfold get_object_or_404, bind, issue, modify, gets; simpl.
  rewrite filter_both, H. simpl. rewrite Hu, Z.eqb_refl. reflexivity.
Qed.

Lemma log_action_run (w : world) (pk : Z) (device : Device.t)
      (action value : value) (a : string) (f : option PyFloat.float) :
  filter (fun d => Device.id d =? pk) (devices w) = [device] ->
  char_field action = Returns a ->
  float_field value = Returns f ->
  log_action pk action value w
    = (Returns tt,
       {| devices := devices w;
          logs := (logs w ++ [ {| Log.device := Device.id device;
                                  Log.action := a;
                                  Log.value := f |} ])%list;
          queries := (queries w ++ [SelectDevice pk None;
                                    InsertLog (Device.id device)])%list |}).
Proof.
  intros H Ha Hf.
  unfold log_action, try_except, objects_get, log_create, bind, issue, modify,
    gets, lift; simpl.
  rewrite H. simpl. rewrite Ha, Hf. simpl. rewrite <- app_assoc. reflexivity.
Qed.

Lemma filter_none {A} (p : A -> bool) (l : list A) :
  (forall x, In x l -> p x = false) -> filter p l = [].
Proof.
  induction l as [| x l IH]; simpl; intros H; [reflexivity |].
  rewrite (H x (or_introl eq_refl)). apply IH. intros y Hy. apply H. now right.
Qed.

Lemma first_In (rows : list Device.t) (d : Device.t) :
  first rows = Some d -> In d rows.
Proof.
  revert d. induction rows as [| r rows IH]; simpl; intros d; [discriminate |].
  destruct (first rows) as [d' |].
  - destruct (Device.id d' <? Device.id r); intros [= <-]; auto.
  - intros [= <-]. now left.
Qed.

End ViewFacts.

(** ** Facts about the clean-up of the reply *)
Module GeminiFacts.
Import Text Terms TextFacts Gemini.

Lemma sub_fuel_stable (lit : string) :
  lit <> EmptyString ->
  forall (n m : nat) (s : string),
    (String.length s < n)%nat -> (String.length s < m)%nat ->
    sub_fuel lit n s = sub_fuel lit m s.
Proof.
  intros Hlit. induction n as [| n IH]; intros m s Hn Hm; [lia |].
  destruct m as [| m]; [lia |]. simpl.
  destruct (startswith lit s) eqn:E.
  - pose proof (startswith_length _ _ E) as Hl.
    pose proof (lstrip_length (drop (String.length lit) s)) as Hs.
    rewrite drop_length in Hs.
    assert (0 < String.length lit)%nat by (destruct lit; [contradiction | simpl; lia]).
    apply IH; lia.
  - destruct s as [| c s]; [reflexivity |]. simpl in Hn, Hm.
    f_equal. apply IH; lia.
Qed.

(** The equation of [re_sub]. *)
Lemma re_sub_eq (lit s : string) :
  lit <> EmptyString ->
  re_sub lit s =
    if startswith lit s
    then re_sub lit (lstrip (drop (String.length lit) s))
    else match s with
         | EmptyString => EmptyString
         | String c s' => String c (re_sub lit s')
         end.
Proof.
  intros Hlit. unfold re_sub at 1. simpl.
  destruct (startswith lit s) eqn:E.
  - pose proof (startswith_length _ _ E) as Hl.
    pose proof (lstrip_length (drop (String.length lit) s)) as Hs.
    rewrite drop_length in Hs.
    assert (0 < String.length lit)%nat by (destruct lit; [contradiction | simpl; lia]).
    apply sub_fuel_stable; [exact Hlit | lia | lia].
  - destruct s as [| c s]; reflexivity.
Qed.

Lemma fence_json_nonempty : fence_json <> EmptyString.
Proof. discriminate. Qed.

Lemma fence_nonempty : fence <> EmptyString.
Proof. discriminate. Qed.

Lemma space_not_backtick (c : ascii) (s : string) (lit : string) :
  isspace c = true -> startswith (String "`" lit) (String c s) = false.
Proof.
  intros H.
  change (startswith (String "`" lit) (String c s))
    with (Ascii.eqb "`" c && startswith lit s).
  destruct (Ascii.eqb "`" c) eqn:E; [| reflexivity].
  apply Ascii.eqb_eq in E. subst c. discriminate.
Qed.

(** No fence opens in whitespace. *)
Lemma re_sub_json_spaces_fence (ws : string) :
  spaces ws -> re_sub fence_json (ws ++ fence) = ws ++ fence.
Proof.
  induction ws as [| c ws IH]; [reflexivity |].
  intros H. simpl in H. apply andb_prop in H. destruct H as [Hc Hws].
  rewrite re_sub_eq by exact fence_json_nonempty.
  change (String c ws ++ fence) with (String c (ws ++ fence)).
  unfold fence_json at 1. rewrite space_not_backtick by exact Hc.
  now rewrite IH.
Qed.

Lemma re_sub_spaces_fence (ws : string) :
  spaces ws -> re_sub fence (ws ++ fence) = ws.
Proof.
  induction ws as [| c ws IH]; [reflexivity |].
  intros H. simpl in H. apply andb_prop in H. destruct H as [Hc Hws].
  rewrite re_sub_eq by exact fence_nonempty.
  change (String c ws ++ fence) with (String c (ws ++ fence)).
  unfold fence at 1. rewrite space_not_backtick by exact Hc.
  now rewrite IH.
Qed.

Lemma eqb_space_false (a c : ascii) :
  isspace a = false -> isspace c = true -> Ascii.eqb a c = false.
Proof.
  intros Ha Hc. destruct (Ascii.eqb a c) eqn:E; [| reflexivity].
  apply Ascii.eqb_eq in E. congruence.
Qed.

(** A non-empty literal that starts with a character other than
    whitespace does not start a text that starts with whitespace. *)
Lemma startswith_space (a c : ascii) (lit s : string) :
  isspace a = false -> isspace c = true ->
  startswith (String a lit) (String c s) = false.
Proof.
  intros Ha Hc.
  change (startswith (String a lit) (String c s))
    with (Ascii.eqb a c && startswith lit s).
  now rewrite (eqb_space_false a c Ha Hc).
Qed.

(** No part of the closing fence and of the whitespace before it
    completes an opening fence. *)
Lemma no_json_across (x l2 ws : string) :
  fence_json = x ++ l2 -> l2 <> EmptyString -> spaces ws ->
  startswith l2 (ws ++ fence) = false.
Proof.
  intros H Hne Hws. unfold fence_json in H.
  assert (Hl2 : In l2 ["```json"; "``json"; "`json"; "json"; "son"; "on"; "n"]).
  { repeat (destruct x as [| ? x];
            [simpl in H; subst l2; simpl; tauto
            | simpl in H; injection H as _ H]).
    destruct x; simpl in H; [subst l2; contradiction | discriminate]. }
  destruct ws as [| c ws].
  - simpl in Hl2.
    repeat (destruct Hl2 as [<- | Hl2]; [reflexivity |]). contradiction.
  - simpl in Hws. apply andb_prop in Hws. destruct Hws as [Hc _].
    simpl in Hl2.
    repeat (destruct Hl2 as [<- | Hl2];
            [apply startswith_space; [reflexivity | exact Hc] |]).
    contradiction.
Qed.

(** The opening fences of a text are removed in the same way when
    whitespace and a closing fence follow it. *)
Lemma re_sub_json_before_fence (n : nat) :
  forall X ws : string,
    (String.length X <= n)%nat -> spaces ws ->
    exists ws', spaces ws'
      /\ re_sub fence_json (X ++ ws ++ fence)
         = re_sub fence_json X ++ ws' ++ fence.
Proof.
  induction n as [| n IH]; intros X ws Hn Hws.
  - destruct X; [| simpl in Hn; lia].
    exists ws. split; [exact Hws |]. now apply re_sub_json_spaces_fence.
  - destruct X as [| c X].
    { exists ws. split; [exact Hws |]. now apply re_sub_json_spaces_fence. }
    rewrite (re_sub_eq fence_json (String c X ++ ws ++ fence)),
      (re_sub_eq fence_json (String c X)) by exact fence_json_nonempty.
    destruct (startswith fence_json (String c X)) eqn:E.
    + rewrite (startswith_weaken _ _ (ws ++ fence) E).
      pose proof (startswith_length _ _ E) as Hl.
      pose proof (startswith_split _ _ E) as Hsplit.
      remember (drop (String.length fence_json) (String c X)) as X1 eqn:Hdrop.
      assert (HX1 : (String.length X1 <= n)%nat).
      { rewrite Hdrop, drop_length. simpl in *. lia. }
      rewrite Hsplit, append_assoc, drop_app, lstrip_app.
      destruct (all_chars isspace X1) eqn:Hsp.
      * exists EmptyString. split; [reflexivity |].
        rewrite (lstrip_spaces X1 Hsp), lstrip_app, Hws. reflexivity.
      * apply IH; [| exact Hws].
        pose proof (lstrip_length X1). lia.
    + destruct (startswith fence_json (String c X ++ ws ++ fence)) eqn:E2.
      * apply startswith_cases in E2.
        destruct E2 as [E2 | (l2 & Hne & Hx & Hl2)]; [congruence |].
        rewrite (no_json_across _ _ _ Hx Hne Hws) in Hl2. discriminate.
      * simpl in Hn.
        destruct (IH X ws ltac:(lia) Hws) as (ws' & Hws' & Heq).
        exists ws'. split; [exact Hws' |].
        simpl. now rewrite Heq.
Qed.

(** The closing fence goes, and with it at most whitespace stays. *)
Lemma re_sub_fence_before_fence (n : nat) :
  forall Z ws : string,
    (String.length Z <= n)%nat -> spaces ws ->
    exists ws', spaces ws'
      /\ re_sub fence (Z ++ ws ++ fence) = re_sub fence Z ++ ws'.
Proof.
  induction n as [| n IH]; intros Z ws Hn Hws.
  - destruct Z; [| simpl in Hn; lia].
    exists ws. split; [exact Hws |]. now apply re_sub_spaces_fence.
  - destruct Z as [| c Z].
    { exists ws. split; [exact Hws |]. now apply re_sub_spaces_fence. }
    rewrite (re_sub_eq fence (String c Z ++ ws ++ fence)),
      (re_sub_eq fence (String c Z)) by exact fence_nonempty.
    destruct (startswith fence (String c Z)) eqn:E.
    + rewrite (startswith_weaken _ _ (ws ++ fence) E).
      pose proof (startswith_length _ _ E) as Hl.
      pose proof (startswith_split _ _ E) as Hsplit.
      remember (drop (String.length fence) (String c Z)) as Z1 eqn:Hdrop.
      assert (HZ1 : (String.length Z1 <= n)%nat).
      { rewrite Hdrop, drop_length. simpl in *. lia. }
      rewrite Hsplit, append_assoc, drop_app, lstrip_app.
      destruct (all_chars isspace Z1) eqn:Hsp.
      * exists EmptyString. split; [reflexivity |].
        rewrite (lstrip_spaces Z1 Hsp), lstrip_app, Hws. reflexivity.
      * apply IH; [| exact Hws].
        pose proof (lstrip_length Z1). lia.
    + destruct (startswith fence (String c Z ++ ws ++ fence)) eqn:E2.
      * apply startswith_cases in E2.
        destruct E2 as [E2 | (l2 & Hne & Hx & Hl2)]; [congruence |].
        destruct ws as [| d ws].
        -- exists EmptyString. split; [reflexivity |].
           unfold fence in Hx.
           simpl in Hx. injection Hx as <- Hx.
           destruct Z as [| c2 Z]; [reflexivity |].
           simpl in Hx. injection Hx as <- Hx.
           destruct Z as [| c3 Z]; [reflexivity |].
           simpl in Hx. injection Hx as <- Hx.
           destruct Z; simpl in Hx; [subst l2; contradiction | discriminate].
        -- simpl in Hws. apply andb_prop in Hws. destruct Hws as [Hd _].
           assert (Hl : In l2 ["``"; "`"]).
           { unfold fence in Hx. simpl in Hx. injection Hx as _ Hx.
             destruct Z as [| ? Z]; [simpl in Hx; subst; simpl; tauto |].
             simpl in Hx. injection Hx as _ Hx.
             destruct Z as [| ? Z]; [simpl in Hx; subst; simpl; tauto |].
             simpl in Hx. injection Hx as _ Hx.
             destruct Z; simpl in Hx; [subst l2; contradiction | discriminate]. }
           simpl in Hl.
           exfalso.
           destruct Hl as [<- | [<- | []]];
             exact (eq_true_false_abs _ Hl2
                      (startswith_space "`" d _ (ws ++ fence) eq_refl Hd)).
      * simpl in Hn.
        destruct (IH Z ws ltac:(lia) Hws) as (ws' & Hws' & Heq).
        exists ws'. split; [exact Hws' |].
        simpl. now rewrite Heq.
Qed.

(** What is left of a text, whitespace and a closing fence once the
    leading whitespace is gone. *)
Lemma lstrip_before_fence (T ws2 : string) :
  spaces ws2 ->
  exists ws, spaces ws /\ lstrip (T ++ ws2 ++ fence) = strip T ++ ws ++ fence.
Proof.
  intros Hws2. destruct (rstrip_split T) as (t & Ht & HT).
  unfold strip. pose proof (rstrip_not_spaces T) as Hempty.
  remember (rstrip T) as R eqn:HR.
  rewrite HT, append_assoc, lstrip_app.
  destruct (all_chars isspace R) eqn:E.
  - rewrite (Hempty eq_refl).
    exists EmptyString. split; [reflexivity |].
    rewrite lstrip_app, Ht, lstrip_app, Hws2. reflexivity.
  - exists (t ++ ws2). split; [now rewrite all_chars_append, Ht, Hws2 |].
    now rewrite append_assoc.
Qed.

(** The cleaned text of a reply does not change when the reply is put
    between an opening [```json] fence and a closing fence, with any
    whitespace (a line break, or none) after the one and before the
    other. *)
Lemma cleaned_text_fenced (T ws1 ws2 : string) :
  spaces ws1 -> spaces ws2 ->
  cleaned_text (fence_json ++ ws1 ++ T ++ ws2 ++ fence) = cleaned_text T.
Proof.
  intros H1 H2. unfold cleaned_text.
  assert (Hstrip : strip (fence_json ++ ws1 ++ T ++ ws2 ++ fence)
                   = fence_json ++ ws1 ++ T ++ ws2 ++ fence).
  { unfold strip.
    replace (fence_json ++ ws1 ++ T ++ ws2 ++ fence)
      with ((fence_json ++ ws1 ++ T ++ ws2) ++ fence)
      by now rewrite !append_assoc.
    rewrite rstrip_fixed_app by (discriminate || reflexivity).
    reflexivity. }
  rewrite Hstrip.
  rewrite (re_sub_eq fence_json (fence_json ++ _)) by exact fence_json_nonempty.
  rewrite startswith_app, drop_app, lstrip_app, H1.
  destruct (lstrip_before_fence T ws2 H2) as (ws & Hws & ->).
  destruct (re_sub_json_before_fence _ (strip T) ws (le_n _) Hws)
    as (ws' & Hws' & ->).
  destruct (re_sub_fence_before_fence _ (re_sub fence_json (strip T)) ws'
              (le_n _) Hws') as (ws'' & Hws'' & ->).
  unfold strip at 1. now rewrite rstrip_app_spaces.
Qed.

End GeminiFacts.

Module Claims.
Import Py Orm Logger Views Terms ViewFacts Fixtures.

(** ** C1 *)

(** C1, as stated, fails: the device type "light" is not in the limits
    table, the text "abc" does not coerce to a float, and validation
    accepts it all the same. *)
Lemma unknown_type_accepts_non_numeric :
  lookup DEVICE_LIMITS (Text.lower (Device.device_type light)) = None
  /\ float (VStr "abc") = Raises ValueError
  /\ validate_device_value light (VStr "abc") = Returns (true, None).
Proof. repeat split; vm_compute; reflexivity. Qed.

(** C1, amended: for every device whose lower-cased device type is not a
    key of the limits table, validation accepts every value, numeric or
    not; no coercion to a float is attempted. *)
Theorem unknown_type_accepts_every_value (device : Device.t) (value : value) :
  lookup DEVICE_LIMITS (Text.lower (Device.device_type device)) = None ->
  validate_device_value device value = Returns (true, None).
Proof. apply validate_unknown. Qed.

Lemma unknown_type_accepts_every_value_witness :
  validate_device_value light (VList [VStr "abc"; VNone]) = Returns (true, None).
Proof. apply (unknown_type_accepts_every_value light). reflexivity. Defined.

(** ** C3 *)

(** What holds of C3: for a device type in the limits table and a value
    that coerces to the float [f], validation accepts when the number
    [f] denotes lies between the bounds, both included, rejects with
    the range message when it lies below or above them or is infinite,
    and a value on which [float] raises ValueError or TypeError is
    rejected as not a number. *)
Lemma validate_within_limits (device : Device.t) (value : value) (l : limits) :
  lookup DEVICE_LIMITS (Text.lower (Device.device_type device)) = Some l ->
  (forall f q, float value = Returns f -> PyFloat.to_Q f = Some q ->
     (inject_Z (min l) <= q <= inject_Z (max l))%Q ->
     validate_device_value device value = Returns (true, None))
  /\ (forall f q, float value = Returns f -> PyFloat.to_Q f = Some q ->
        (q < inject_Z (min l) \/ inject_Z (max l) < q)%Q ->
        validate_device_value device value =
          Returns (false, Some (range_error device l)))
  /\ (forall s, float value = Returns (PyFloat.inf s) ->
        validate_device_value device value =
          Returns (false, Some (range_error device l)))
  /\ (float value = Raises ValueError \/ float value = Raises TypeError ->
        validate_device_value device value =
          Returns (false, Some "Invalid value: must be a number")).
Proof.
  intros Hl. repeat split.
  - intros f q Hf Hq Hr. rewrite (validate_known _ _ _ _ Hl Hf).
    apply (FloatFacts.in_range_iff f q _ _ Hq) in Hr. now rewrite Hr.
  - intros f q Hf Hq Hr. rewrite (validate_known _ _ _ _ Hl Hf).
    destruct (PyFloat.lt_int f (min l) || PyFloat.gt_int f (max l)) eqn:E;
      [reflexivity |].
    apply (FloatFacts.in_range_iff f q _ _ Hq) in E. destruct E as [E1 E2].
    destruct Hr as [Hr | Hr]; exfalso;
      [exact (Qlt_not_le _ _ Hr E1) | exact (Qlt_not_le _ _ Hr E2)].
  - intros s Hf. rewrite (validate_known _ _ _ _ Hl Hf). now destruct s.
  - intros H. exact (validate_not_a_number _ _ _ Hl H).
Qed.

(** C3 fails on the code at an int too large for a float: [float]
    raises OverflowError, the handler names ValueError and TypeError
    only, and validation raises where the claim has it reject. *)
Theorem validate_raises_on_huge_int :
  lookup DEVICE_LIMITS (Text.lower (Device.device_type ac))
    = Some {| min := 16; max := 30; unit := celsius |}
  /\ float (VInt (10 ^ 400)) = Raises OverflowError
  /\ validate_device_value ac (VInt (10 ^ 400)) = Raises OverflowError
  /\ fst (control {| Request.user := 1;
                     Request.data := [("action", VStr "set_temperature");
                                      ("value", VInt (10 ^ 400))] |} 2 home)
     = Raises OverflowError.
Proof. repeat split; vm_compute; reflexivity. Qed.

(** The bounds of the "ac" entry at work: 16 and 30 are accepted, the
    floats next below 16 and next above 30 are rejected, a text that
    spells no number is not a number. *)
Example validate_ac_at_the_bounds :
  validate_device_value ac (VInt 16) = Returns (true, None)
  /\ validate_device_value ac (VInt 30) = Returns (true, None)
  /\ validate_device_value ac (VStr "15.999999999999998")
     = Returns (false, Some ("AC " ++ celsius ++ " must be between 16 and 30"))
  /\ validate_device_value ac (VStr "30.000000000000004")
     = Returns (false, Some ("AC " ++ celsius ++ " must be between 16 and 30"))
  /\ validate_device_value ac (VStr "warm")
     = Returns (false, Some "Invalid value: must be a number").
Proof. repeat split; vm_compute; reflexivity. Qed.

(** ** C2 *)

(** C2: when [apply_device_action] returns failure, the device object
    and the world (rows, log and calls issued) are what they were; the
    message is the validation's own when the value-bearing branch was
    taken, and the fixed one otherwise; and [control], on that failure,
    answers 400 with that message and writes no log row. *)
Theorem failed_apply_changes_nothing
  (device device' : Device.t) (w w' : world) (action value : value)
  (msg : option string) :
  apply_device_action action value (device, w)
    = (Returns (false, msg), (device', w')) ->
  device' = device
  /\ Device.status device' = Device.status device
  /\ w' = w
  /\ logs w' = logs w
  /\ ((bears_value action value = true
       /\ validate_device_value device value = Returns (false, msg))
      \/ (bears_value action value = false
          /\ msg = Some "Invalid action or missing value"))
  /\ (forall (request : Request.t) (pk : Z) (w0 : world),
        get_object_or_404 pk (Request.user request) w0 = (Returns device, w) ->
        get (Request.data request) "action" = action ->
        get (Request.data request) "value" = value ->
        control request pk w0
          = (Returns {| Response.data := [("error", of_msg msg)];
                        Response.status := 400 |}, w)
        /\ logs w = logs w0 /\ devices w = devices w0).
Proof.
  intros H.
  assert (E : device' = device /\ w' = w
              /\ ((bears_value action value = true
                   /\ validate_device_value device value = Returns (false, msg))
                  \/ (bears_value action value = false
                      /\ msg = Some "Invalid action or missing value"))).
  { rewrite apply_run in H.
    destruct (eq_str action "turn_on"); [discriminate |].
    destruct (eq_str action "turn_off"); [discriminate |].
    destruct (bears_value action value).
    - rewrite set_value_run in H.
      destruct (validate_device_value device value) as [[[] e] | e];
        inversion H; subst; auto.
    - inversion H; subst; auto. }
  destruct E as (-> & -> & E).
  do 4 (split; [reflexivity |]). split; [exact E |].
  intros request pk w0 Hget Ha Hv. split.
  - unfold control, bind. rewrite Hget, Ha, Hv.
    unfold with_object. rewrite H. reflexivity.
  - revert Hget.
    unfold get_object_or_404, bind, issue, modify, gets, get_one; simpl.
    match goal with
    | |- context [filter ?p ?l] => destruct (filter p l) as [| ? [| ? ?]]
    end; unfold ret, raise; intros [= <- <-]; split; reflexivity.
Qed.

Lemma failed_apply_changes_nothing_witness :
  control {| Request.user := 1;
             Request.data := [("action", VStr "set_temperature");
                              ("value", VInt 10)] |} 2 home
    = (Returns {| Response.data :=
                    [("error", VStr ("AC " ++ celsius ++ " must be between 16 and 30"))];
                  Response.status := 400 |},
       {| devices := devices home; logs := logs home;
          queries := [SelectDevice 2 (Some 1)] |})
  /\ logs home = [] /\ devices home = [light; ac; fan; other].
Proof.
  pose proof (failed_apply_changes_nothing ac ac
                {| devices := devices home; logs := logs home;
                   queries := [SelectDevice 2 (Some 1)] |}
                {| devices := devices home; logs := logs home;
                   queries := [SelectDevice 2 (Some 1)] |}
                (VStr "set_temperature") (VInt 10)
                (Some ("AC " ++ celsius ++ " must be between 16 and 30"))
                eq_refl) as (_ & _ & _ & _ & _ & H).
  exact (H {| Request.user := 1;
              Request.data := [("action", VStr "set_temperature");
                               ("value", VInt 10)] |} 2 home
           eq_refl eq_refl eq_refl).
Defined.

(** ** C7 *)

(** C7: an action outside turn_on, turn_off, set_temperature and
    set_speed, or set_temperature or set_speed with the value None,
    fails with "Invalid action or missing value" and leaves the device
    and the world as they were; set_brightness, which the prompt of the
    interpreter lists, is such an action. *)
Theorem other_action_or_missing_value_fails
  (device : Device.t) (w : world) (action value : value) :
  (~ In action [VStr "turn_on"; VStr "turn_off"; VStr "set_temperature";
                VStr "set_speed"]
   \/ (In action [VStr "set_temperature"; VStr "set_speed"] /\ value = VNone)) ->
  apply_device_action action value (device, w)
    = (Returns (false, Some "Invalid action or missing value"), (device, w))
  /\ In "set_brightness" Gemini.prompt_actions
  /\ apply_device_action (VStr "set_brightness") value (device, w)
     = (Returns (false, Some "Invalid action or missing value"), (device, w)).
Proof.
  intros H. split; [| split; [simpl; tauto | reflexivity]].
  rewrite apply_run. unfold bears_value.
  destruct H as [H | [H ->]].
  - simpl in H.
    destruct (eq_str action "turn_on") eqn:E1;
      [apply eq_str_true in E1; intuition congruence |].
    destruct (eq_str action "turn_off") eqn:E2;
      [apply eq_str_true in E2; intuition congruence |].
    destruct (eq_str action "set_temperature") eqn:E3;
      [apply eq_str_true in E3; intuition congruence |].
    destruct (eq_str action "set_speed") eqn:E4;
      [apply eq_str_true in E4; intuition congruence |].
    reflexivity.
  - destruct H as [<- | [<- | []]]; reflexivity.
Qed.

Lemma other_action_or_missing_value_fails_witness :
  apply_device_action (VStr "set_speed") VNone (fan, home)
    = (Returns (false, Some "Invalid action or missing value"), (fan, home))
  /\ In "set_brightness" Gemini.prompt_actions
  /\ apply_device_action (VStr "set_brightness") VNone (fan, home)
     = (Returns (false, Some "Invalid action or missing value"), (fan, home)).
Proof.
  apply (other_action_or_missing_value_fails fan home (VStr "set_speed") VNone).
  right. split; [simpl; tauto | reflexivity].
Defined.

(** ** C10 *)

(** C10: whatever the action, the value and the outcome (success,
    failure or exception), the device object keeps its key, its owner,
    its name and its device type; a row of the table afterwards is a row
    of before or the object itself. *)
Theorem apply_keeps_identity
  (device : Device.t) (w : world) (action value : value) :
  let device' := fst (snd (apply_device_action action value (device, w))) in
  let w' := snd (snd (apply_device_action action value (device, w))) in
  Device.id device' = Device.id device
  /\ Device.user device' = Device.user device
  /\ Device.name device' = Device.name device
  /\ Device.device_type device' = Device.device_type device
  /\ (forall r, In r (devices w') -> In r (devices w) \/ r = device').
Proof.
  rewrite apply_run.
  destruct (eq_str action "turn_on");
    [simpl; repeat split; intros r; apply write_row_In |].
  destruct (eq_str action "turn_off");
    [simpl; repeat split; intros r; apply write_row_In |].
  destruct (bears_value action value); [| simpl; auto 6].
  rewrite set_value_run.
  destruct (validate_device_value device value) as [[[] e] | e];
    simpl; auto 6.
  repeat split; intros r; apply write_row_In.
Qed.

(** ** C6 *)

(** C6: on a device of type "ac" with status "24", the control request
    with action set_temperature and value 20 is answered 200, the row of
    the device gets the status "20", and the log gains exactly one row,
    for that device, with action set_temperature and value 20. *)
Theorem control_sets_ac_to_20
  (w : world) (device : Device.t) (request : Request.t) (pk : Z) :
  filter (fun d => Device.id d =? pk) (devices w) = [device] ->
  Device.user device = Request.user request ->
  Device.device_type device = "ac" ->
  Device.status device = "24" ->
  get (Request.data request) "action" = VStr "set_temperature" ->
  get (Request.data request) "value" = VInt 20 ->
  exists w',
    control request pk w
      = (Returns {| Response.data :=
                      [("message", VStr (Device.name device ++ " updated to 20"));
                       ("device", VStr (Device.name device));
                       ("new_status", VStr "20")];
                    Response.status := 200 |}, w')
    /\ filter (fun d => Device.id d =? pk) (devices w')
       = [Device.set_status device "20"]
    /\ logs w' = (logs w ++ [ {| Log.device := pk;
                                 Log.action := "set_temperature";
                                 Log.value := Some twenty |} ])%list
    /\ (exists q, PyFloat.to_Q twenty = Some q /\ (q == inject_Z 20)%Q).
Proof.
  intros Hrow Hu Ht Hs Ha Hv.
  assert (Hpk : Device.id device = pk).
  { assert (Hin : In device (filter (fun d => Device.id d =? pk) (devices w)))
      by (rewrite Hrow; now left).
    apply filter_In in Hin. now apply Z.eqb_eq. }
  subst pk.
  set (device' := Device.set_status device "20").
  assert (Hvalid : validate_device_value device (VInt 20) = Returns (true, None)).
  { unfold validate_device_value. rewrite Ht. reflexivity. }
  eexists. split; [| split; [| split]].
  - unfold control, bind.
    rewrite (get_object_or_404_run _ _ _ _ Hrow Hu), Ha, Hv.
    unfold with_object.
    change (apply_device_action (VStr "set_temperature") (VInt 20))
      with (set_value (VInt 20)).
    rewrite set_value_run, Hvalid.
    change (str (VInt 20)) with "20". fold device'.
    cbv iota beta. change (negb true) with false. cbv iota beta.
    rewrite (log_action_run _ (Device.id device') device'
               (VStr "set_temperature") (VInt 20) "set_temperature"
               (Some twenty)).
    + reflexivity.
    + simpl. exact (filter_write_row device' device _ Hrow).
    + reflexivity.
    + reflexivity.
  - simpl. exact (filter_write_row device' device _ Hrow).
  - reflexivity.
  - eexists. split; reflexivity.
Qed.

Lemma control_sets_ac_to_20_witness :
  exists w',
    control {| Request.user := 1;
               Request.data := [("action", VStr "set_temperature");
                                ("value", VInt 20)] |} 2 home
      = (Returns {| Response.data :=
                      [("message", VStr "AC updated to 20");
                       ("device", VStr "AC");
                       ("new_status", VStr "20")];
                    Response.status := 200 |}, w')
    /\ filter (fun d => Device.id d =? 2) (devices w')
       = [Device.set_status ac "20"]
    /\ logs w' = (logs home ++ [ {| Log.device := 2;
                                    Log.action := "set_temperature";
                                    Log.value := Some twenty |} ])%list
    /\ (exists q, PyFloat.to_Q twenty = Some q /\ (q == inject_Z 20)%Q).
Proof.
  apply (control_sets_ac_to_20 home ac
           {| Request.user := 1;
              Request.data := [("action", VStr "set_temperature");
                               ("value", VInt 20)] |} 2);
    reflexivity.
Defined.

End Claims.

Module AssistantClaims.
Import Py Orm Logger Views Terms ViewFacts Fixtures.

Section Dispatch.


Variable GEMINI_API_KEY : option string.
Variable generate_content : string -> option string.
Variable json_loads : string -> option dict.
Variable iexact : string -> string -> bool.

Abbreviation interpret := (Gemini.interpret json_loads).
Abbreviation parse :=
(Gemini.parse_command_with_gemini GEMINI_API_KEY generate_content json_loads).
Abbreviation dispatch :=
(post GEMINI_API_KEY generate_content json_loads iexact).

Lemma interpret_keys (text : string) (parsed : dict) :
interpret text = Some parsed ->
contains parsed "device_name" = true /\ contains parsed "action" = true.
Proof.
unfold Gemini.interpret.
destruct (Gemini.re_search _); [| discriminate].
destruct (json_loads _) as [p |]; [| discriminate].
destruct (contains p "device_name") eqn:E1; [| discriminate].
destruct (contains p "action") eqn:E2; [| discriminate].
now intros [= <-].
Qed.

Lemma parse_keys (command_text : value) (parsed : dict) :
parse command_text = Some parsed ->
contains parsed "device_name" = true /\ contains parsed "action" = true.
Proof.
unfold Gemini.parse_command_with_gemini.
destruct GEMINI_API_KEY as [key |]; [| discriminate].
destruct (String.eqb key EmptyString); [discriminate |].
destruct (generate_content _); [| discriminate].
apply interpret_keys.
Qed.

Lemma contains_nonempty (d : dict) (k : string) :
contains d k = true -> match d with [] => false | _ => true end = true.
Proof. now destruct d. Qed.

(** What [post] does once the command is parsed. *)
Lemma post_parsed (request : Request.t) (w : world) (parsed : dict) :
truthy (get (Request.data request) "command") = true ->
parse (get (Request.data request) "command") = Some parsed ->
dispatch request w =
  (found <- filter_first iexact (get parsed "device_name") (Request.user request) ;;
   match found with
   | None =>
       ret {| Response.data :=
                [("error", VStr ("Device '" ++ str (get parsed "device_name")
                                 ++ "' not found"));
                 ("suggestion", VStr "Please check device name or add it first")];
              Response.status := 404 |}
   | Some device =>
       '(success, error_msg, device) <-
         with_object device
           (apply_device_action (get parsed "action") (get parsed "value")) ;;
       if negb success then
         ret {| Response.data :=
                  [("error", of_msg error_msg);
                   ("command", get (Request.data request) "command");
                   ("device", VStr (Device.name device))];
                Response.status := 400 |}
       else
         log_action (Device.id device) (get parsed "action") (get parsed "value") ;;;
         ret {| Response.data :=
                  [("message", VStr (Device.name device ++ " updated successfully"));
                   ("device", VStr (Device.name device));
                   ("action", get parsed "action");
                   ("value", if truthy (get parsed "value")
                             then get parsed "value" else VNone);
                   ("new_status", VStr (Device.status device));
                   ("command_understood", get (Request.data request) "command")];
                Response.status := 200 |}
   end) w.
Proof.
intros Ht Hp. unfold post. rewrite Ht. simpl negb. cbv iota.
rewrite Hp.
destruct (parse_keys _ _ Hp) as [K1 K2].
rewrite K1, K2, (contains_nonempty _ _ K1). reflexivity.
Qed.

(** ** C4 *)

(** C4: when the text extracted from the reply does not decode, or
  decodes to an object without "device_name" or without "action",
  the interpretation is None, and [post] answers 400 "Could not
  understand command" and leaves the world as it was: no row is read,
  none is written. *)
Theorem undecodable_reply_is_not_understood
(request : Request.t) (w : world) (key text json_text : string) :
truthy (get (Request.data request) "command") = true ->
GEMINI_API_KEY = Some key ->
key <> EmptyString ->
generate_content (Gemini.prompt (get (Request.data request) "command"))
  = Some text ->
Gemini.re_search (Gemini.cleaned_text text) = Some json_text ->
(json_loads json_text = None
 \/ exists parsed,
      json_loads json_text = Some parsed
      /\ (contains parsed "device_name" = false
          \/ contains parsed "action" = false)) ->
interpret text = None
/\ parse (get (Request.data request) "command") = None
/\ dispatch request w = (Returns not_understood, w).
Proof.
intros Ht Hk Hne Hg Hs Hj.
assert (Hi : interpret text = None).
{ unfold Gemini.interpret. rewrite Hs.
  destruct Hj as [-> | (parsed & -> & [-> | ->])]; try reflexivity.
  now rewrite andb_false_r. }
assert (Hp : parse (get (Request.data request) "command") = None).
{ unfold Gemini.parse_command_with_gemini. rewrite Hk.
  apply String.eqb_neq in Hne. rewrite Hne, Hg. exact Hi. }
repeat split; auto.
unfold post. rewrite Ht. simpl negb. cbv iota.
rewrite Hp. reflexivity.
Qed.

(** ** C5 *)

(** C5: when the parsed device name matches none of the devices of the
  requesting user, [post] answers 404 with the error and a
  suggestion; the rows and the log are what they were, the one call
  issued is the lookup; and a lookup that does select a device
  selects a row of that user whose name matches. *)
Theorem unmatched_name_is_not_found
(request : Request.t) (w : world) (parsed : dict) :
truthy (get (Request.data request) "command") = true ->
parse (get (Request.data request) "command") = Some parsed ->
(forall d, In d (devices w) ->
           Device.user d = Request.user request ->
           name_iexact iexact (get parsed "device_name") (Device.name d) = false) ->
(exists w',
   dispatch request w
     = (Returns {| Response.data :=
                     [("error", VStr ("Device '" ++ str (get parsed "device_name")
                                      ++ "' not found"));
                      ("suggestion", VStr "Please check device name or add it first")];
                   Response.status := 404 |}, w')
   /\ devices w' = devices w
   /\ logs w' = logs w
   /\ queries w' = (queries w ++ [SelectDeviceByName (get parsed "device_name")
                                    (Request.user request)])%list)
/\ (forall key owner w0 d w1,
      filter_first iexact key owner w0 = (Returns (Some d), w1) ->
      In d (devices w0)
      /\ Device.user d = owner
      /\ name_iexact iexact key (Device.name d) = true).
Proof.
intros Ht Hp Hnone. split.
- eexists. split; [| split; [| split]].
  + rewrite (post_parsed _ _ _ Ht Hp).
    unfold bind, filter_first, issue, modify, gets; simpl.
    rewrite filter_none; [reflexivity |].
    intros d Hd. destruct (Device.user d =? Request.user request) eqn:E.
    * apply Z.eqb_eq in E. now rewrite (Hnone d Hd E).
    * apply andb_false_r.
  + reflexivity.
  + reflexivity.
  + reflexivity.
- intros key owner w0 d w1.
  unfold filter_first, bind, issue, modify, gets; simpl.
  intros [= H _]. apply first_In, filter_In in H.
  destruct H as [Hin H]. apply andb_prop in H. destruct H as [H1 H2].
  apply Z.eqb_eq in H2. auto.
Qed.

(** ** C9 *)

(** C9: in a 200 answer of [post], the field "value" is None whenever
  the parsed value is falsy. *)
Theorem falsy_value_is_reported_as_null
(request : Request.t) (w w' : world) (parsed : dict) (response : Response.t) :
parse (get (Request.data request) "command") = Some parsed ->
dispatch request w = (Returns response, w') ->
Response.status response = 200 ->
truthy (get parsed "value") = false ->
get (Response.data response) "value" = VNone.
Proof.
intros Hp Hd Hs Hf.
destruct (truthy (get (Request.data request) "command")) eqn:Ht.
- rewrite (post_parsed _ _ _ Ht Hp) in Hd.
  unfold bind in Hd.
  destruct (filter_first _ _ _ w) as [[[device |] | e] w1];
    try (inversion Hd; subst; discriminate).
  destruct (with_object device _ w1) as [[[[[] msg] device'] | e] w2];
    try (inversion Hd; subst; discriminate).
  simpl in Hd.
  destruct (log_action _ _ _ w2) as [[[] | e] w3];
    try (inversion Hd; subst; discriminate).
  inversion Hd; subst. simpl. now rewrite Hf.
- unfold post in Hd. rewrite Ht in Hd.
  inversion Hd; subst; discriminate.
Qed.

End Dispatch.

Lemma undecodable_reply_is_not_understood_witness :
  Gemini.interpret loads reply_no_action = None
  /\ Gemini.parse_command_with_gemini api_key (service reply_no_action) loads
       (VStr "do something with the fan") = None
  /\ post api_key (service reply_no_action) loads caseless
       (command "do something with the fan" 1) home
     = (Returns not_understood, home).
Proof.
  apply (undecodable_reply_is_not_understood
           api_key (service reply_no_action) loads caseless
           (command "do something with the fan" 1) home
           "key" reply_no_action object_no_action).
  - reflexivity.
  - reflexivity.
  - discriminate.
  - reflexivity.
  - vm_compute. reflexivity.
  - right. exists [("device_name", VStr "fan")].
    split; [vm_compute; reflexivity | right; reflexivity].
Defined.

Lemma unmatched_name_is_not_found_witness :
  exists w',
    post api_key (service reply_kitchen) loads caseless
      (command "turn on the kitchen light" 1) home
    = (Returns {| Response.data :=
                    [("error", VStr "Device 'kitchen light' not found");
                     ("suggestion", VStr "Please check device name or add it first")];
                  Response.status := 404 |}, w')
    /\ devices w' = devices home
    /\ logs w' = logs home
    /\ queries w' = [SelectDeviceByName (VStr "kitchen light") 1].
Proof.
  apply (unmatched_name_is_not_found
           api_key (service reply_kitchen) loads caseless
           (command "turn on the kitchen light" 1) home
           [("device_name", VStr "kitchen light"); ("action", VStr "turn_on")]).
  - reflexivity.
  - vm_compute. reflexivity.
  - intros d [<- | [<- | [<- | [<- | []]]]] Hu;
      solve [vm_compute; reflexivity | discriminate Hu].
Defined.

Lemma falsy_value_is_reported_as_null_witness :
  exists response w',
    post api_key (service reply_fan_0) loads caseless
      (command "set the fan speed to 0" 1) home
    = (Returns response, w')
    /\ Response.status response = 200
    /\ get (Response.data response) "new_status" = VStr "0"
    /\ logs w' = [ {| Log.device := 3; Log.action := "set_speed";
                      Log.value := Some zero |} ]
    /\ get (Response.data response) "value" = VNone.
Proof.
  eexists. eexists.
  split; [vm_compute; reflexivity |].
  split; [reflexivity |].
  split; [reflexivity |].
  split; [reflexivity |].
  eapply (falsy_value_is_reported_as_null
            api_key (service reply_fan_0) loads caseless
            (command "set the fan speed to 0" 1) home).
  - vm_compute. reflexivity.
  - vm_compute. reflexivity.
  - reflexivity.
  - reflexivity.
Defined.

End AssistantClaims.


Module InterpreterClaims.
Import Py Terms Fixtures Gemini GeminiFacts.

(** ** C8 *)

(** C8: a reply put between a [```json] fence and a closing fence, with
    whitespace (a line break, say, or nothing) after the one and before
    the other, is cleaned to the same text as the reply alone; the same
    object is extracted from both, and both are interpreted alike,
    whatever the decoder. *)
Theorem fenced_reply_is_interpreted_alike
  (json_loads : string -> option dict) (T ws1 ws2 : string) :
  spaces ws1 -> spaces ws2 ->
  cleaned_text (fenced ws1 T ws2) = cleaned_text T
  /\ re_search (cleaned_text (fenced ws1 T ws2)) = re_search (cleaned_text T)
  /\ interpret json_loads (fenced ws1 T ws2) = interpret json_loads T.
Proof.
  intros H1 H2. unfold interpret, fenced.
  rewrite (cleaned_text_fenced T ws1 ws2 H1 H2). repeat split.
Qed.

Lemma fenced_reply_is_interpreted_alike_witness :
  cleaned_text (fenced nl reply_fan_0 nl) = cleaned_text reply_fan_0
  /\ re_search (cleaned_text (fenced nl reply_fan_0 nl))
     = re_search (cleaned_text reply_fan_0)
  /\ interpret loads (fenced nl reply_fan_0 nl) = interpret loads reply_fan_0.
Proof.
  apply (fenced_reply_is_interpreted_alike loads reply_fan_0 nl nl);
    reflexivity.
Defined.

End InterpreterClaims.

(* ===================================================================== *)
(** * Further properties                                                  *)
(* ===================================================================== *)

(** ** Facts about the applier, the logger and [control] *)
Module MoreViewFacts.
Import Py Orm Logger Views Terms Invariants ViewFacts.

Lemma validate_true_none (device : Device.t) (value : value) (m : option string) :
  validate_device_value device value = Returns (true, m) -> m = None.
Proof.
  unfold validate_device_value.
  destruct (lookup _ _); [| now intros [= <-]].
  destruct (float value) as [f | []]; try discriminate.
  destruct (_ || _); [discriminate | now intros [= <-]].
Qed.

Lemma float_raises (value : value) (e : exn) :
  float value = Raises e -> e = ValueError \/ e = TypeError \/ e = OverflowError.
Proof.
  destruct value; simpl; unfold float_of_int;
    try destruct (PyFloat.of_int _); try destruct (PyFloat.of_string _);
    intros H; inversion H; auto.
Qed.

Lemma of_int_bit (b : bool) : PyFloat.of_int (Z.b2z b) <> None.
Proof. destruct b; discriminate. Qed.

Lemma apply_success_inv
  (device device' : Device.t) (w w' : world) (action value : value)
  (msg : option string) :
  apply_device_action action value (device, w)
    = (Returns (true, msg), (device', w')) ->
  msg = None
  /\ w' = saved device' w
  /\ ((action = VStr "turn_on" /\ device' = Device.set_status device "on")
      \/ (action = VStr "turn_off" /\ device' = Device.set_status device "off")
      \/ ((action = VStr "set_temperature" \/ action = VStr "set_speed")
          /\ value <> VNone
          /\ validate_device_value device value = Returns (true, None)
          /\ device' = Device.set_status device (str value))).
Proof.
  rewrite apply_run.
  destruct (eq_str action "turn_on") eqn:E1.
  { apply eq_str_true in E1. intros [= <- <- <-]. auto. }
  destruct (eq_str action "turn_off") eqn:E2.
  { apply eq_str_true in E2. intros [= <- <- <-]. auto 6. }
  destruct (bears_value action value) eqn:E3; [| discriminate].
  rewrite set_value_run.
  destruct (validate_device_value device value) as [[[] e] | e] eqn:Ev;
    try discriminate.
  intros [= <- <- <-].
  pose proof (validate_true_none _ _ _ Ev) as ->.
  unfold bears_value in E3. apply andb_prop in E3. destruct E3 as [Ea En].
  apply orb_prop in Ea.
  repeat split; auto. right. right. repeat split; auto.
  - destruct Ea as [Ea | Ea]; apply eq_str_true in Ea; auto.
  - intros ->. discriminate.
Qed.

Lemma apply_raise_inv
  (device device' : Device.t) (w w' : world) (action value : value) (e : exn) :
  apply_device_action action value (device, w) = (Raises e, (device', w')) ->
  e = OverflowError
  /\ device' = device /\ w' = w
  /\ (action = VStr "set_temperature" \/ action = VStr "set_speed")
  /\ (exists z, value = VInt z /\ PyFloat.of_int z = None)
  /\ lookup DEVICE_LIMITS (Text.lower (Device.device_type device)) <> None.
Proof.
  rewrite apply_run.
  destruct (eq_str action "turn_on"); [discriminate |].
  destruct (eq_str action "turn_off"); [discriminate |].
  destruct (bears_value action value) eqn:E3; [| discriminate].
  rewrite set_value_run.
  destruct (validate_device_value device value) as [[[] m] | e'] eqn:Ev;
    try discriminate.
  intros [= <- <- <-].
  unfold bears_value in E3. apply andb_prop in E3. destruct E3 as [Ea _].
  apply orb_prop in Ea.
  unfold validate_device_value in Ev.
  destruct (lookup DEVICE_LIMITS _) as [l |]; [| discriminate].
  assert (Hf : float value = Raises e' /\ e' = OverflowError).
  { destruct (float value) as [f | e0] eqn:Ef.
    - destruct (_ || _); discriminate.
    - destruct (float_raises _ _ Ef) as [-> | [-> | ->]]; try discriminate.
      now injection Ev as <-. }
  destruct Hf as [Hf ->].
  repeat split; auto.
  - destruct Ea as [Ea | Ea]; apply eq_str_true in Ea; auto.
  - destruct value; simpl in Hf; try discriminate.
    + unfold float_of_int in Hf.
      destruct (PyFloat.of_int (Z.b2z b)) eqn:Eb; [discriminate |].
      now apply of_int_bit in Eb.
    + exists z. split; [reflexivity |].
      unfold float_of_int in Hf. now destruct (PyFloat.of_int z).
    + destruct (PyFloat.of_string s); discriminate.
  - discriminate.
Qed.


Lemma exn_eqb_DoesNotExist (v : value) (e : exn) :
  float v = Raises e -> exn_eqb DoesNotExist e = false.
Proof.
  intros H. destruct (float_raises _ _ H) as [-> | [-> | ->]]; reflexivity.
Qed.

(** What [log_action] does, by the rows of that key. *)
Lemma log_action_cases (pk : Z) (action value : value) (w : world) :
  log_action pk action value w =
    let w0 := issued (SelectDevice pk None) w in
    match filter (fun d => Device.id d =? pk) (devices w) with
    | [] => (Returns tt, w0)
    | [d] =>
        match char_field action, float_field value with
        | Returns a, Returns f =>
            (Returns tt,
             {| devices := devices w;
                logs := (logs w ++ [ {| Log.device := Device.id d;
                                        Log.action := a;
                                        Log.value := f |} ])%list;
                queries := (queries w0 ++ [InsertLog (Device.id d)])%list |})
        | Raises e, _ => (Raises e, w0)
        | Returns _, Raises e => (Raises e, w0)
        end
    | _ => (Raises MultipleObjectsReturned, w0)
    end.
Proof.
  unfold log_action, try_except, objects_get, log_create, bind, issue, modify,
    gets, lift, get_one, issued; simpl.
  destruct (filter _ (devices w)) as [| d [| d2 rest]]; simpl; try reflexivity.
  destruct action; simpl; try reflexivity;
    unfold float_field;
    destruct value; simpl; try reflexivity;
    match goal with
    | |- context [float_of_int ?z] =>
        unfold float_of_int; destruct (PyFloat.of_int z); reflexivity
    | |- context [PyFloat.of_string ?s] =>
        destruct (PyFloat.of_string s); reflexivity
    | _ => idtac
    end.
Qed.

Lemma get_object_or_404_cases (pk owner : Z) (w : world) :
  get_object_or_404 pk owner w =
    (match filter (fun d => (Device.id d =? pk) && (Device.user d =? owner))
                  (devices w) with
     | [] => Raises Http404
     | [d] => Returns d
     | _ => Raises MultipleObjectsReturned
     end,
     issued (SelectDevice pk (Some owner)) w).
Proof.
  unfold get_object_or_404, bind, issue, modify, gets, get_one, issued; simpl.
  destruct (filter _ (devices w)) as [| d [| d2 rest]]; reflexivity.
Qed.

(** [control], step by step. *)
Lemma control_steps (request : Request.t) (pk : Z) (w : world) :
  control request pk w =
    match get_object_or_404 pk (Request.user request) w with
    | (Raises e, w0) => (Raises e, w0)
    | (Returns device, w0) =>
        match apply_device_action (get (Request.data request) "action")
                (get (Request.data request) "value") (device, w0) with
        | (Raises e, (_, w1)) => (Raises e, w1)
        | (Returns (false, m), (_, w1)) => (Returns (bad_request m), w1)
        | (Returns (true, _), (d', w1)) =>
            match log_action (Device.id d') (get (Request.data request) "action")
                    (get (Request.data request) "value") w1 with
            | (Returns _, w2) => (Returns (updated d'), w2)
            | (Raises e, w2) => (Raises e, w2)
            end
        end
    end.
Proof.
  unfold control, bind, with_object.
  destruct (get_object_or_404 _ _ w) as [[device | e] w0]; [| reflexivity].
  destruct (apply_device_action _ _ (device, w0)) as [[[[] m] | e] [d' w1]];
    reflexivity.
Qed.

Lemma filter_both_inv (pk owner : Z) (rows : list Device.t) (d : Device.t) :
  In d (filter (fun d => (Device.id d =? pk) && (Device.user d =? owner)) rows) ->
  In d rows /\ Device.id d = pk /\ Device.user d = owner.
Proof.
  intros H. apply filter_In in H. destruct H as [Hin H].
  apply andb_prop in H. destruct H as [H1 H2].
  apply Z.eqb_eq in H1. apply Z.eqb_eq in H2. auto.
Qed.

Lemma existsb_key (d : Device.t) (rows : list Device.t) (pk : Z) :
  In d rows -> Device.id d = pk ->
  existsb (fun r => Device.id r =? pk) rows = true.
Proof.
  intros Hin Hk. apply existsb_exists. exists d. split; [exact Hin |].
  now apply Z.eqb_eq.
Qed.

(** [save] on a device that has a row keeps the keys of the table. *)
Lemma write_row_keys (d : Device.t) (rows : list Device.t) :
  existsb (fun r => Device.id r =? Device.id d) rows = true ->
  map Device.id (write_row d rows) = map Device.id rows.
Proof.
  intros H. unfold write_row. rewrite H. rewrite map_map.
  apply map_ext. intros r.
  destruct (Device.id r =? Device.id d) eqn:E; [| reflexivity].
  apply Z.eqb_eq in E. now rewrite E.
Qed.

(** [save] leaves the rows of the other keys alone. *)
Lemma write_row_others (d r : Device.t) (rows : list Device.t) :
  In r rows -> Device.id r <> Device.id d -> In r (write_row d rows).
Proof.
  intros Hin Hne. unfold write_row.
  destruct (existsb _ rows).
  - apply in_map_iff. exists r. split; [| exact Hin].
    apply Z.eqb_neq in Hne. now rewrite Hne.
  - apply in_or_app. now left.
Qed.

Lemma unique_key_row (rows : list Device.t) (x y : Device.t) :
  NoDup (map Device.id rows) -> In x rows -> In y rows ->
  Device.id x = Device.id y -> x = y.
Proof.
  induction rows as [| r rows IH]; simpl; [contradiction |].
  intros Hnd Hx Hy Hk. inversion Hnd as [| ? ? Hnotin Hnd']; subst.
  destruct Hx as [-> | Hx], Hy as [-> | Hy]; auto.
  - exfalso. apply Hnotin. rewrite Hk. now apply in_map.
  - exfalso. apply Hnotin. rewrite <- Hk. now apply in_map.
Qed.

(** With unique keys, [save] on an object that has the frame of its row
    keeps the frame of every row. *)
Lemma write_row_frames (d d0 : Device.t) (rows : list Device.t) :
  NoDup (map Device.id rows) -> In d0 rows -> frame d = frame d0 ->
  map frame (write_row d rows) = map frame rows.
Proof.
  intros Hnd Hin Hf.
  assert (Hk : Device.id d = Device.id d0) by (unfold frame in Hf; congruence).
  unfold write_row.
  rewrite (existsb_key d0 rows (Device.id d) Hin (eq_sym Hk)), map_map.
  apply map_ext_in. intros r Hr.
  destruct (Device.id r =? Device.id d) eqn:E; [| reflexivity].
  apply Z.eqb_eq in E.
  rewrite (unique_key_row rows r d0 Hnd Hr Hin); [exact Hf | congruence].
Qed.

(** With unique keys, [save] on the object of a row gives back the table
    when the object is the row. *)
Lemma write_row_same (d : Device.t) (rows : list Device.t) :
  NoDup (map Device.id rows) -> In d rows -> write_row d rows = rows.
Proof.
  intros Hnd Hin. unfold write_row.
  rewrite (existsb_key d rows (Device.id d) Hin eq_refl).
  rewrite <- (map_id rows) at 2. apply map_ext_in. intros r Hr.
  destruct (Device.id r =? Device.id d) eqn:E; [| reflexivity].
  apply Z.eqb_eq in E. symmetry. now apply (unique_key_row rows r d Hnd).
Qed.

Lemma filter_key_unique (rows : list Device.t) (d : Device.t) :
  NoDup (map Device.id rows) -> In d rows ->
  filter (fun r => Device.id r =? Device.id d) rows = [d].
Proof.
  induction rows as [| r rows IH]; simpl; [contradiction |].
  intros Hnd Hin. inversion Hnd as [| ? ? Hnotin Hnd']; subst.
  destruct Hin as [-> | Hin].
  - rewrite Z.eqb_refl. f_equal.
    apply filter_none. intros x Hx. apply Z.eqb_neq. intros E.
    apply Hnotin. rewrite <- E. now apply in_map.
  - destruct (Device.id r =? Device.id d) eqn:E.
    + apply Z.eqb_eq in E. exfalso. apply Hnotin. rewrite E. now apply in_map.
    + now apply IH.
Qed.

Lemma apply_frame (device device' : Device.t) (w w' : world)
      (action value : value) (r : outcome (bool * option string)) :
  apply_device_action action value (device, w) = (r, (device', w')) ->
  frame device' = frame device
  /\ (w' = w \/ w' = saved device' w).
Proof.
  destruct r as [[[] m] | e]; intros H.
  - destruct (apply_success_inv _ _ _ _ _ _ _ H)
      as (_ & -> & [[_ ->] | [[_ ->] | (_ & _ & _ & ->)]]); auto.
  - rewrite apply_run in H.
    destruct (eq_str action "turn_on"); [discriminate |].
    destruct (eq_str action "turn_off"); [discriminate |].
    destruct (bears_value action value).
    + rewrite set_value_run in H.
      destruct (validate_device_value device value) as [[[] e] | e];
        inversion H; subst; auto.
    + inversion H; subst; auto.
  - destruct (apply_raise_inv _ _ _ _ _ _ _ H) as (_ & -> & -> & _). auto.
Qed.


Lemma apply_failure_inv (device device' : Device.t) (w w' : world)
      (action value : value) (m : option string) :
  apply_device_action action value (device, w)
    = (Returns (false, m), (device', w')) ->
  device' = device /\ w' = w.
Proof.
  rewrite apply_run.
  destruct (eq_str action "turn_on"); [discriminate |].
  destruct (eq_str action "turn_off"); [discriminate |].
  destruct (bears_value action value).
  - rewrite set_value_run.
    destruct (validate_device_value device value) as [[[] e] | e];
      intros H; inversion H; subst; auto.
  - intros H; inversion H; subst; auto.
Qed.

(** A successful action succeeds again on the object it left, and leaves
    it as it is. *)
Lemma apply_again (device device' : Device.t) (w w' w2 : world)
      (action value : value) (m : option string) :
  apply_device_action action value (device, w)
    = (Returns (true, m), (device', w')) ->
  apply_device_action action value (device', w2)
    = (Returns (true, None), (device', saved device' w2)).
Proof.
  intros H.
  destruct (apply_success_inv _ _ _ _ _ _ _ H)
    as (_ & _ & [[-> ->] | [[-> ->] | (Ha & Hn & Hv & ->)]]).
  - reflexivity.
  - reflexivity.
  - rewrite apply_run.
    assert (E : bears_value action value = true).
    { unfold bears_value.
      destruct value; try contradiction; destruct Ha as [-> | ->]; reflexivity. }
    rewrite E.
    replace (eq_str action "turn_on") with false
      by (destruct Ha as [-> | ->]; reflexivity).
    replace (eq_str action "turn_off") with false
      by (destruct Ha as [-> | ->]; reflexivity).
    rewrite set_value_run.
    change (validate_device_value (Device.set_status device (str value)) value)
      with (validate_device_value device value).
    rewrite Hv. reflexivity.
Qed.

Lemma write_row_has (d : Device.t) (rows : list Device.t) :
  In d (write_row d rows).
Proof.
  unfold write_row. destruct (existsb _ rows) eqn:E.
  - apply existsb_exists in E. destruct E as (r & Hr & Hk).
    apply in_map_iff. exists r. now rewrite Hk.
  - apply in_or_app. right. now left.
Qed.

Lemma frame_key (d d' : Device.t) : frame d' = frame d -> Device.id d' = Device.id d.
Proof. unfold frame. congruence. Qed.

Lemma frame_user (d d' : Device.t) : frame d' = frame d -> Device.user d' = Device.user d.
Proof. unfold frame. congruence. Qed.

(** The device table after [control]: as before, or with the object of
    the addressed row saved over it. *)
Lemma control_devices (request : Request.t) (pk : Z) (w : world) :
  devices (snd (control request pk w)) = devices w
  \/ exists device d',
       In device (devices w)
       /\ Device.id device = pk
       /\ Device.user device = Request.user request
       /\ frame d' = frame device
       /\ devices (snd (control request pk w)) = write_row d' (devices w).
Proof.
  rewrite control_steps, get_object_or_404_cases.
  destruct (filter _ (devices w)) as [| device [| d2 rest]] eqn:Ef;
    try (left; reflexivity).
  assert (Hin : In device (filter (fun d => (Device.id d =? pk)
                                            && (Device.user d =? Request.user request))
                                  (devices w))) by (rewrite Ef; now left).
  apply filter_both_inv in Hin. destruct Hin as (Hin & Hk & Hu).
  destruct (apply_device_action _ _ _) as [r [d' w1]] eqn:Ea.
  destruct (apply_frame _ _ _ _ _ _ _ Ea) as [Hfr Hw].
  destruct r as [[[] m] | e].
  - destruct (apply_success_inv _ _ _ _ _ _ _ Ea) as (_ & Hs & _).
    rewrite log_action_cases.
    assert (Hd : devices w1 = write_row d' (devices w)) by (rewrite Hs; reflexivity).
    right. exists device, d'. repeat split; auto.
    destruct (filter _ (devices w1)) as [| x [| y l]]; simpl; auto.
    destruct (char_field _); [destruct (float_field _) |]; simpl; auto.
  - destruct (apply_failure_inv _ _ _ _ _ _ _ Ea) as [_ ->]. now left.
  - destruct (apply_raise_inv _ _ _ _ _ _ _ Ea) as (_ & _ & -> & _). now left.
Qed.

End MoreViewFacts.

(** ** The applier *)
Module ApplierProps.
Import Py Orm Logger Views Terms Invariants ViewFacts MoreViewFacts Fixtures.

(** NaN is neither below the least nor above the greatest value: for a
    device type of the limits table, a value that coerces to NaN passes
    validation, and set_temperature stores its text as the status. *)
Theorem nan_passes_validation
  (device : Device.t) (w : world) (value : value) (l : limits) :
  lookup DEVICE_LIMITS (Text.lower (Device.device_type device)) = Some l ->
  float value = Returns PyFloat.nan ->
  validate_device_value device value = Returns (true, None)
  /\ apply_device_action (VStr "set_temperature") value (device, w)
     = (Returns (true, None),
        (Device.set_status device (str value),
         saved (Device.set_status device (str value)) w)).
Proof.
  intros Hl Hf.
  assert (Hv : validate_device_value device value = Returns (true, None)).
  { rewrite (validate_known _ _ _ _ Hl Hf). reflexivity. }
  split; [exact Hv |].
  assert (Hn : is_not_None value = true) by (destruct value; try reflexivity; discriminate).
  rewrite apply_run. change (eq_str (VStr "set_temperature") "turn_on") with false.
  change (eq_str (VStr "set_temperature") "turn_off") with false.
  unfold bears_value. rewrite Hn.
  change (eq_str (VStr "set_temperature") "set_temperature") with true.
  cbv iota. simpl orb. cbv iota. simpl andb. cbv iota.
  rewrite set_value_run, Hv. reflexivity.
Qed.

Lemma nan_passes_validation_witness :
  validate_device_value ac (VStr "nan") = Returns (true, None)
  /\ apply_device_action (VStr "set_temperature") (VStr "nan") (ac, home)
     = (Returns (true, None),
        (Device.set_status ac "nan", saved (Device.set_status ac "nan") home)).
Proof.
  apply (nan_passes_validation ac home (VStr "nan")
           {| min := 16; max := 30; unit := celsius |}); reflexivity.
Defined.

(** A successful [apply_device_action] has saved the device exactly once
    and done nothing else to the world; the status it stored is "on",
    "off", or the text of the value as it was sent, and in that last case
    the value passed validation. *)
Theorem successful_apply_saves_once
  (device device' : Device.t) (w w' : world) (action value : value)
  (msg : option string) :
  apply_device_action action value (device, w)
    = (Returns (true, msg), (device', w')) ->
  msg = None
  /\ w' = saved device' w
  /\ ((action = VStr "turn_on" /\ device' = Device.set_status device "on")
      \/ (action = VStr "turn_off" /\ device' = Device.set_status device "off")
      \/ ((action = VStr "set_temperature" \/ action = VStr "set_speed")
          /\ value <> VNone
          /\ validate_device_value device value = Returns (true, None)
          /\ device' = Device.set_status device (str value))).
Proof. apply apply_success_inv. Qed.

Lemma successful_apply_saves_once_witness :
  @None string = None
  /\ saved (Device.set_status fan "True") home
     = saved (Device.set_status fan "True") home
  /\ ((VStr "set_speed" = VStr "turn_on"
       /\ Device.set_status fan "True" = Device.set_status fan "on")
      \/ (VStr "set_speed" = VStr "turn_off"
          /\ Device.set_status fan "True" = Device.set_status fan "off")
      \/ ((VStr "set_speed" = VStr "set_temperature"
           \/ VStr "set_speed" = VStr "set_speed")
          /\ VBool true <> VNone
          /\ validate_device_value fan (VBool true) = Returns (true, None)
          /\ Device.set_status fan "True"
             = Device.set_status fan (str (VBool true)))).
Proof.
  apply (successful_apply_saves_once fan (Device.set_status fan "True")
           home (saved (Device.set_status fan "True") home)
           (VStr "set_speed") (VBool true) None).
  vm_compute. reflexivity.
Defined.



End ApplierProps.

(** ** The logger *)
Module LoggerProps.
Import Py Orm Logger Views Terms Invariants ViewFacts MoreViewFacts Fixtures.

(** When no row has the key, [log_action] returns without an exception
    and writes nothing, whatever the action and the value. *)
Theorem log_action_skips_missing_device
  (pk : Z) (action value : value) (w : world) :
  (forall d, In d (devices w) -> Device.id d <> pk) ->
  log_action pk action value w = (Returns tt, issued (SelectDevice pk None) w).
Proof.
  intros H. rewrite log_action_cases.
  rewrite filter_none; [reflexivity |].
  intros d Hd. apply Z.eqb_neq. now apply H.
Qed.

Lemma log_action_skips_missing_device_witness :
  log_action 9 (VStr "turn_on") (VStr "abc") home
    = (Returns tt, issued (SelectDevice 9 None) home).
Proof.
  apply (log_action_skips_missing_device 9 (VStr "turn_on") (VStr "abc") home).
  intros d [<- | [<- | [<- | [<- | []]]]]; discriminate.
Defined.

(** Whatever its outcome, [log_action] leaves the device table as it is,
    never raises DoesNotExist, and adds to the log nothing or, when it
    returns, one row for the key it was given. *)
Theorem log_action_adds_at_most_one_row
  (pk : Z) (action value : value) (w : world) :
  let r := fst (log_action pk action value w) in
  let w' := snd (log_action pk action value w) in
  devices w' = devices w
  /\ r <> Raises DoesNotExist
  /\ (logs w' = logs w
      \/ (r = Returns tt
          /\ exists row, logs w' = (logs w ++ [row])%list
                         /\ Log.device row = pk)).
Proof.
  rewrite log_action_cases. simpl.
  destruct (filter _ (devices w)) as [| d [| d2 rest]] eqn:Ef; simpl.
  - repeat split; [discriminate | now left].
  - assert (Hk : Device.id d = pk).
    { assert (Hin : In d (filter (fun d => Device.id d =? pk) (devices w)))
        by (rewrite Ef; now left).
      apply filter_In in Hin. now apply Z.eqb_eq. }
    destruct (char_field action) as [a | e] eqn:Ec.
    + destruct (float_field value) as [f | e] eqn:Eff; simpl.
      * repeat split; [discriminate |]. right. split; [reflexivity |].
        eexists. split; [reflexivity | exact Hk].
      * repeat split; [| now left].
        unfold float_field in Eff. destruct value; try discriminate;
          match type of Eff with
          | context [float ?v] =>
              destruct (float v) as [? | e0] eqn:E0; [discriminate |];
              injection Eff as <-;
              destruct (float_raises _ _ E0) as [-> | [-> | ->]]; discriminate
          end.
    + simpl. repeat split; [| now left].
      destruct action; simpl in Ec; try discriminate. now injection Ec as <-.
  - repeat split; [discriminate | now left].
Qed.

End LoggerProps.

(** ** [control] *)
Module ControlProps.
Import Py Orm Logger Views Terms Invariants ViewFacts MoreViewFacts Fixtures.

(** A key that is no device of the requesting user, be it the key of a
    device of another user, makes [control] raise Http404 before
    anything is changed. *)
Theorem control_of_foreign_device_is_404
  (request : Request.t) (pk : Z) (w : world) :
  (forall d, In d (devices w) -> Device.id d = pk ->
             Device.user d <> Request.user request) ->
  control request pk w
    = (Raises Http404,
       issued (SelectDevice pk (Some (Request.user request))) w).
Proof.
  intros H. rewrite control_steps, get_object_or_404_cases.
  rewrite filter_none; [reflexivity |].
  intros d Hd. destruct (Device.id d =? pk) eqn:E; [| reflexivity].
  apply Z.eqb_eq in E. apply (H d Hd) in E. apply Z.eqb_neq in E.
  now rewrite E.
Qed.

Lemma control_of_foreign_device_is_404_witness :
  control {| Request.user := 1; Request.data := [("action", VStr "turn_off")] |}
          4 home
    = (Raises Http404, issued (SelectDevice 4 (Some 1)) home).
Proof.
  apply (control_of_foreign_device_is_404
           {| Request.user := 1; Request.data := [("action", VStr "turn_off")] |}
           4 home).
  intros d [<- | [<- | [<- | [<- | []]]]] H; discriminate.
Defined.

(** When [control] answers, the answer is 400 and rows and log are what
    they were, or it is 200, the object saved over the addressed row is
    a device of the requesting user with that key, the answer carries
    its status, and the log has exactly one row more, with that key, the
    action of the request and the value as a float. *)
Theorem control_answers
  (request : Request.t) (pk : Z) (w w' : world) (response : Response.t) :
  control request pk w = (Returns response, w') ->
  (Response.status response = 400
   /\ devices w' = devices w /\ logs w' = logs w)
  \/ (exists (d' : Device.t) (a : string) (f : option PyFloat.float),
        response = updated d'
        /\ Device.id d' = pk
        /\ Device.user d' = Request.user request
        /\ devices w' = write_row d' (devices w)
        /\ In d' (devices w')
        /\ VStr a = get (Request.data request) "action"
        /\ float_field (get (Request.data request) "value") = Returns f
        /\ logs w' = (logs w ++ [ {| Log.device := pk; Log.action := a;
                                     Log.value := f |} ])%list).
Proof.
  rewrite control_steps, get_object_or_404_cases.
  destruct (filter _ (devices w)) as [| device [| d2 rest]] eqn:Ef;
    try discriminate.
  assert (Hin : In device (filter (fun d => (Device.id d =? pk)
                                            && (Device.user d =? Request.user request))
                                  (devices w))) by (rewrite Ef; now left).
  apply filter_both_inv in Hin. destruct Hin as (Hin & Hk & Hu).
  destruct (apply_device_action _ _ _) as [r [d' w1]] eqn:Ea.
  destruct (apply_frame _ _ _ _ _ _ _ Ea) as [Hfr _].
  destruct r as [[[] m] | e]; [| | discriminate].
  - destruct (apply_success_inv _ _ _ _ _ _ _ Ea) as (_ & Hs & Hact).
    assert (Hd : devices w1 = write_row d' (devices w)) by (rewrite Hs; reflexivity).
    assert (Hl : logs w1 = logs w) by (rewrite Hs; reflexivity).
    assert (Hstr : exists a, get (Request.data request) "action" = VStr a).
    { destruct Hact as [[-> _] | [[-> _] | ([-> | ->] & _)]]; eauto. }
    destruct Hstr as [a Ha].
    rewrite log_action_cases.
    destruct (filter _ (devices w1)) as [| x [| y l]] eqn:Ef1.
    + exfalso.
      assert (H : In d' (filter (fun d => Device.id d =? Device.id d') (devices w1))).
      { apply filter_In. split; [rewrite Hd; apply write_row_has | apply Z.eqb_refl]. }
      now rewrite Ef1 in H.
    + assert (Hx : Device.id x = Device.id d').
      { assert (H : In x (filter (fun d => Device.id d =? Device.id d') (devices w1)))
          by (rewrite Ef1; now left).
        apply filter_In in H. now apply Z.eqb_eq. }
      rewrite Ha. simpl char_field. cbv iota.
      destruct (float_field _) as [f | e] eqn:Eff; [| discriminate].
      intros [= <- <-]. right. exists d', a, f. simpl.
      rewrite Hx, (frame_key _ _ Hfr), (frame_user _ _ Hfr), Hk, Hl, Hd.
      repeat split; auto. apply write_row_has.
    + discriminate.
  - destruct (apply_failure_inv _ _ _ _ _ _ _ Ea) as [_ ->].
    intros [= <- <-]. left. repeat split.
Qed.

Lemma control_answers_witness :
  exists w' response,
    control {| Request.user := 1; Request.data := [("action", VStr "turn_on")] |}
            1 home = (Returns response, w')
    /\ ((Response.status response = 400
         /\ devices w' = devices home /\ logs w' = logs home)
        \/ (exists (d' : Device.t) (a : string) (f : option PyFloat.float),
              response = updated d'
              /\ Device.id d' = 1
              /\ Device.user d' = 1
              /\ devices w' = write_row d' (devices home)
              /\ In d' (devices w')
              /\ VStr a = VStr "turn_on"
              /\ float_field VNone = Returns f
              /\ logs w' = (logs home ++ [ {| Log.device := 1; Log.action := a;
                                              Log.value := f |} ])%list)).
Proof.
  eexists. eexists. split; [vm_compute; reflexivity |].
  eapply (control_answers
            {| Request.user := 1; Request.data := [("action", VStr "turn_on")] |}
            1 home).
  vm_compute. reflexivity.
Defined.

(** When the action succeeds and the value cannot be stored as a float
    (turn_on sent with a text, say), [control] raises after the device
    was saved: the row has the new status, the log has no new row, and
    there is no answer. *)
Theorem control_raises_after_the_save
  (request : Request.t) (pk : Z) (w w1 : world) (device device' : Device.t)
  (e : exn) :
  unique_keys w ->
  In device (devices w) ->
  Device.id device = pk ->
  Device.user device = Request.user request ->
  apply_device_action (get (Request.data request) "action")
    (get (Request.data request) "value")
    (device, issued (SelectDevice pk (Some (Request.user request))) w)
    = (Returns (true, None), (device', w1)) ->
  float_field (get (Request.data request) "value") = Raises e ->
  exists w',
    control request pk w = (Raises e, w')
    /\ devices w' = write_row device' (devices w)
    /\ filter (fun d => Device.id d =? pk) (devices w') = [device']
    /\ logs w' = logs w.
Proof.
  intros Hnd Hin Hk Hu Ha Hf.
  pose proof (filter_key_unique _ _ Hnd Hin) as Hrow. rewrite Hk in Hrow.
  rewrite control_steps, (get_object_or_404_run _ _ _ _ Hrow Hu).
  change {| devices := devices w; logs := logs w;
            queries := (queries w ++ [SelectDevice pk (Some (Request.user request))])%list |}
    with (issued (SelectDevice pk (Some (Request.user request))) w).
  rewrite Ha.
  destruct (apply_frame _ _ _ _ _ _ _ Ha) as [Hfr _].
  destruct (apply_success_inv _ _ _ _ _ _ _ Ha) as (_ & Hs & Hact).
  assert (Hk' : Device.id device' = pk) by (rewrite (frame_key _ _ Hfr); exact Hk).
  assert (Hd : devices w1 = write_row device' (devices w)) by (rewrite Hs; reflexivity).
  assert (Hrow' : filter (fun d => Device.id d =? pk) (devices w1) = [device']).
  { rewrite Hd, <- Hk'. apply (filter_write_row device' device). now rewrite Hk'. }
  assert (Hstr : exists a, get (Request.data request) "action" = VStr a).
  { destruct Hact as [[-> _] | [[-> _] | ([-> | ->] & _)]]; eauto. }
  destruct Hstr as [a Hstr].
  rewrite log_action_cases, Hk', Hrow', Hstr, Hf. simpl.
  eexists. split; [reflexivity |]. simpl. rewrite Hs. simpl.
  repeat split; auto. now rewrite <- Hd.
Qed.

Lemma control_raises_after_the_save_witness :
  exists w',
    control {| Request.user := 1;
               Request.data := [("action", VStr "turn_on"); ("value", VStr "abc")] |}
            1 home = (Raises ValueError, w')
    /\ devices w' = write_row (Device.set_status light "on") (devices home)
    /\ filter (fun d => Device.id d =? 1) (devices w')
       = [Device.set_status light "on"]
    /\ logs w' = logs home.
Proof.
  apply (control_raises_after_the_save
           {| Request.user := 1;
              Request.data := [("action", VStr "turn_on"); ("value", VStr "abc")] |}
           1 home
           (saved (Device.set_status light "on") (issued (SelectDevice 1 (Some 1)) home))
           light (Device.set_status light "on") ValueError).
  - unfold unique_keys. simpl.
    repeat (constructor; [simpl; intuition discriminate |]). constructor.
  - simpl. tauto.
  - reflexivity.
  - reflexivity.
  - reflexivity.
  - reflexivity.
Defined.

(** A request that [control] answers with 200 is answered the same when
    it is sent again: the device table stays as the first request left
    it, and the log gets the same row a second time. *)
Theorem control_twice
  (request : Request.t) (pk : Z) (w w1 : world) (response : Response.t) :
  unique_keys w ->
  control request pk w = (Returns response, w1) ->
  Response.status response = 200 ->
  exists w2 row,
    control request pk w1 = (Returns response, w2)
    /\ devices w2 = devices w1
    /\ logs w1 = (logs w ++ [row])%list
    /\ logs w2 = (logs w ++ [row; row])%list.
Proof.
  intros Hnd H1 Hs.
  rewrite control_steps, get_object_or_404_cases in H1.
  destruct (filter _ (devices w)) as [| device [| d2 rest]] eqn:Ef;
    try discriminate.
  assert (Hin : In device (filter (fun d => (Device.id d =? pk)
                                            && (Device.user d =? Request.user request))
                                  (devices w))) by (rewrite Ef; now left).
  apply filter_both_inv in Hin. destruct Hin as (Hin & Hk & Hu).
  destruct (apply_device_action _ _ _) as [r [d' wa]] eqn:Ea.
  destruct (apply_frame _ _ _ _ _ _ _ Ea) as [Hfr _].
  destruct r as [[[] m] | e]; [| | discriminate].
  2:{ injection H1 as <- <-. discriminate. }
  destruct (apply_success_inv _ _ _ _ _ _ _ Ea) as (_ & Hsv & Hact).
  assert (Hk' : Device.id d' = pk) by (rewrite (frame_key _ _ Hfr); exact Hk).
  assert (Hu' : Device.user d' = Request.user request)
    by (rewrite (frame_user _ _ Hfr); exact Hu).
  pose proof (filter_key_unique _ _ Hnd Hin) as Hrow. rewrite Hk in Hrow.
  assert (Hd : devices wa = write_row d' (devices w)) by (rewrite Hsv; reflexivity).
  assert (Hrow' : filter (fun d => Device.id d =? pk) (devices wa) = [d']).
  { rewrite Hd, <- Hk'. apply (filter_write_row d' device). now rewrite Hk'. }
  assert (Hstr : exists a, get (Request.data request) "action" = VStr a).
  { destruct Hact as [[-> _] | [[-> _] | ([-> | ->] & _)]]; eauto. }
  destruct Hstr as [a Hstr].
  rewrite log_action_cases, Hk', Hrow', Hstr in H1. simpl in H1.
  destruct (float_field _) as [f | e] eqn:Eff; [| discriminate].
  injection H1 as <- <-.
  (* the second request *)
  assert (Hnd1 : NoDup (map Device.id (devices wa))).
  { rewrite Hd, write_row_keys; [exact Hnd |].
    rewrite Hk'. now apply (existsb_key device). }
  assert (Hin1 : In d' (devices wa)) by (rewrite Hd; apply write_row_has).
  eexists. eexists.
  split; [| split; [| split]].
  - rewrite control_steps. simpl devices.
    rewrite (get_object_or_404_run pk (Request.user request) _ d');
      [| simpl; exact Hrow' | exact Hu'].
    rewrite (apply_again _ _ _ _ _ _ _ _ Ea).
    rewrite log_action_cases, Hk'. simpl devices.
    rewrite (write_row_same d' (devices wa) Hnd1 Hin1), Hrow', Hstr, Eff. simpl.
    reflexivity.
  - reflexivity.
  - simpl. rewrite Hsv. simpl. rewrite ?Hk'. reflexivity.
  - simpl. rewrite Hsv. simpl. rewrite <- app_assoc, ?Hk'. reflexivity.
Qed.

Lemma control_twice_witness :
  exists w2 row,
    control {| Request.user := 1;
               Request.data := [("action", VStr "set_temperature");
                                ("value", VInt 20)] |} 2
      (snd (control {| Request.user := 1;
                       Request.data := [("action", VStr "set_temperature");
                                        ("value", VInt 20)] |} 2 home))
      = (Returns (updated (Device.set_status ac "20")), w2)
    /\ devices w2
       = devices (snd (control {| Request.user := 1;
                                  Request.data := [("action", VStr "set_temperature");
                                                   ("value", VInt 20)] |} 2 home))
    /\ logs (snd (control {| Request.user := 1;
                             Request.data := [("action", VStr "set_temperature");
                                              ("value", VInt 20)] |} 2 home))
       = (logs home ++ [row])%list
    /\ logs w2 = (logs home ++ [row; row])%list.
Proof.
  apply (control_twice
           {| Request.user := 1;
              Request.data := [("action", VStr "set_temperature");
                               ("value", VInt 20)] |} 2 home).
  - unfold unique_keys. simpl.
    repeat (constructor; [simpl; intuition discriminate |]). constructor.
  - vm_compute. reflexivity.
  - reflexivity.
Defined.

(** Whatever its outcome, [control] on a table with unique keys keeps
    the key, the owner, the name and the type of every row, keeps the
    keys unique, and leaves every row of another key as it is. *)
Theorem control_keeps_the_table
  (request : Request.t) (pk : Z) (w : world) :
  unique_keys w ->
  let w' := snd (control request pk w) in
  map frame (devices w') = map frame (devices w)
  /\ unique_keys w'
  /\ (forall r, In r (devices w) -> Device.id r <> pk -> In r (devices w')).
Proof.
  intros Hnd w'. unfold w', unique_keys in *.
  destruct (control_devices request pk w)
    as [-> | (device & d' & Hin & Hk & Hu & Hfr & ->)].
  - repeat split; auto.
  - split; [| split].
    + now apply (write_row_frames d' device).
    + rewrite write_row_keys; [exact Hnd |].
      apply (existsb_key device); [exact Hin | now rewrite (frame_key _ _ Hfr)].
    + intros r Hr Hne. apply write_row_others; [exact Hr |].
      rewrite (frame_key _ _ Hfr). congruence.
Qed.

Lemma control_keeps_the_table_witness :
  let w' := snd (control {| Request.user := 1;
                            Request.data := [("action", VStr "turn_on")] |}
                         1 home) in
  map frame (devices w') = map frame (devices home)
  /\ unique_keys w'
  /\ (forall r, In r (devices home) -> Device.id r <> 1 -> In r (devices w')).
Proof.
  apply (control_keeps_the_table
           {| Request.user := 1; Request.data := [("action", VStr "turn_on")] |}
           1 home).
  unfold unique_keys. simpl.
  repeat (constructor; [simpl; intuition discriminate |]). constructor.
Defined.

End ControlProps.

(** ** The assistant endpoint *)
Module AssistantProps.
Import Py Orm Logger Views Terms Invariants ViewFacts MoreViewFacts Fixtures.

Section Dispatch.

Variable GEMINI_API_KEY : option string.
Variable generate_content : string -> option string.
Variable json_loads : string -> option dict.
Variable iexact : string -> string -> bool.

Abbreviation parse :=
  (Gemini.parse_command_with_gemini GEMINI_API_KEY generate_content json_loads).
Abbreviation dispatch :=
  (post GEMINI_API_KEY generate_content json_loads iexact).

(** The rows a name and an owner select. *)
Abbreviation selected key owner w :=
  (filter (fun d => name_iexact iexact key (Device.name d)
                    && (Device.user d =? owner)) (devices w)).

(** [post], step by step. *)
Lemma post_steps (request : Request.t) (w : world) :
  dispatch request w =
    let command_text := get (Request.data request) "command" in
    if negb (truthy command_text) then (Returns missing_command, w)
    else
      match parse command_text with
      | None => (Returns not_understood, w)
      | Some parsed =>
          let w0 := issued (SelectDeviceByName (get parsed "device_name")
                              (Request.user request)) w in
          match first (selected (get parsed "device_name")
                         (Request.user request) w) with
          | None => (Returns (not_found (get parsed "device_name")), w0)
          | Some device =>
              match apply_device_action (get parsed "action")
                      (get parsed "value") (device, w0) with
              | (Raises e, (_, w1)) => (Raises e, w1)
              | (Returns (false, m), (d', w1)) =>
                  (Returns (rejected m command_text d'), w1)
              | (Returns (true, _), (d', w1)) =>
                  match log_action (Device.id d') (get parsed "action")
                          (get parsed "value") w1 with
                  | (Returns _, w2) =>
                      (Returns (understood d' (get parsed "action")
                                  (get parsed "value") command_text), w2)
                  | (Raises e, w2) => (Raises e, w2)
                  end
              end
          end
      end.
Proof.
  cbv zeta.
  destruct (truthy (get (Request.data request) "command")) eqn:Ht.
  - simpl negb. cbv iota.
    destruct (parse (get (Request.data request) "command")) as [parsed |] eqn:Hp.
    + rewrite (AssistantClaims.post_parsed _ _ _ _ _ _ _ Ht Hp).
      unfold bind, filter_first, issue, modify, gets, with_object; simpl.
      destruct (first _) as [device |]; [| reflexivity].
      destruct (apply_device_action _ _ _) as [[[[] m] | e] [d' w1]];
        reflexivity.
    + unfold post. rewrite Ht, Hp. reflexivity.
  - unfold post. rewrite Ht. reflexivity.
Qed.

Lemma first_none (rows : list Device.t) : first rows = None -> rows = [].
Proof.
  destruct rows as [| r rows]; [reflexivity |]. simpl.
  destruct (first rows) as [d' |]; [| discriminate].
  destruct (_ <? _); discriminate.
Qed.

Lemma filter_nil_all {A} (p : A -> bool) (l : list A) (x : A) :
  filter p l = [] -> In x l -> p x = false.
Proof.
  intros H Hin. destruct (p x) eqn:E; [| reflexivity].
  assert (Hx : In x (filter p l)) by (apply filter_In; auto).
  now rewrite H in Hx.
Qed.

Lemma selected_inv (key : value) (owner : Z) (w : world) (d : Device.t) :
  first (selected key owner w) = Some d ->
  In d (devices w) /\ Device.user d = owner
  /\ name_iexact iexact key (Device.name d) = true.
Proof.
  intros H. apply first_In, filter_In in H. destruct H as [Hin H].
  apply andb_prop in H. destruct H as [H1 H2]. apply Z.eqb_eq in H2. auto.
Qed.

(** The device table after [post]: as before, or with the object of a
    row of the requesting user saved over it. *)
Lemma post_devices (request : Request.t) (w : world) :
  devices (snd (dispatch request w)) = devices w
  \/ exists device d',
       In device (devices w)
       /\ Device.user device = Request.user request
       /\ frame d' = frame device
       /\ devices (snd (dispatch request w)) = write_row d' (devices w).
Proof.
  rewrite post_steps. cbv zeta.
  destruct (negb _); [now left |].
  destruct (parse _) as [parsed |]; [| now left].
  destruct (first _) as [device |] eqn:Ef; [| now left].
  destruct (selected_inv _ _ _ _ Ef) as (Hin & Hu & _).
  destruct (apply_device_action _ _ _) as [r [d' w1]] eqn:Ea.
  destruct (apply_frame _ _ _ _ _ _ _ Ea) as [Hfr _].
  destruct r as [[[] m] | e].
  - destruct (apply_success_inv _ _ _ _ _ _ _ Ea) as (_ & Hs & _).
    rewrite log_action_cases.
    assert (Hd : devices w1 = write_row d' (devices w)) by (rewrite Hs; reflexivity).
    right. exists device, d'. repeat split; auto.
    destruct (filter _ (devices w1)) as [| x [| y l]]; simpl; auto.
    destruct (char_field _); [destruct (float_field _) |]; simpl; auto.
  - destruct (apply_failure_inv _ _ _ _ _ _ _ Ea) as [_ ->]. now left.
  - destruct (apply_raise_inv _ _ _ _ _ _ _ Ea) as (_ & _ & -> & _). now left.
Qed.

(** Whatever its outcome, [post] on a table with unique keys keeps the
    key, the owner, the name and the type of every row, keeps the keys
    unique, and leaves the rows of the other users as they are. *)
Theorem post_keeps_the_table (request : Request.t) (w : world) :
  unique_keys w ->
  let w' := snd (dispatch request w) in
  map frame (devices w') = map frame (devices w)
  /\ unique_keys w'
  /\ (forall r, In r (devices w) ->
                Device.user r <> Request.user request -> In r (devices w')).
Proof.
  intros Hnd w'. unfold w', unique_keys in *.
  destruct (post_devices request w)
    as [-> | (device & d' & Hin & Hu & Hfr & ->)].
  - repeat split; auto.
  - split; [| split].
    + now apply (write_row_frames d' device).
    + rewrite write_row_keys; [exact Hnd |].
      apply (existsb_key device); [exact Hin | now rewrite (frame_key _ _ Hfr)].
    + intros r Hr Hne. apply write_row_others; [exact Hr |].
      rewrite (frame_key _ _ Hfr). intros E.
      apply Hne. rewrite (unique_key_row _ _ _ Hnd Hr Hin E). exact Hu.
Qed.

(** When [post] answers: 400 or 404 with rows and log as they were, and
    for 404 no device of the user bears the parsed name; or 200, and then
    the object saved is a device of the requesting user whose name
    matches the parsed name, the answer carries its status, and the log
    has exactly one row more, for that device, with the parsed action
    and the value as a float. *)
Theorem post_answers
  (request : Request.t) (w w' : world) (response : Response.t) :
  dispatch request w = (Returns response, w') ->
  (Response.status response = 400
   /\ devices w' = devices w /\ logs w' = logs w)
  \/ (exists parsed,
        parse (get (Request.data request) "command") = Some parsed
        /\ response = not_found (get parsed "device_name")
        /\ devices w' = devices w /\ logs w' = logs w
        /\ (forall d, In d (devices w) ->
                      Device.user d = Request.user request ->
                      name_iexact iexact (get parsed "device_name")
                        (Device.name d) = false))
  \/ (exists parsed (d' : Device.t) (a : string) (f : option PyFloat.float),
        parse (get (Request.data request) "command") = Some parsed
        /\ response = understood d' (get parsed "action") (get parsed "value")
                        (get (Request.data request) "command")
        /\ Device.user d' = Request.user request
        /\ name_iexact iexact (get parsed "device_name") (Device.name d') = true
        /\ devices w' = write_row d' (devices w)
        /\ In d' (devices w')
        /\ VStr a = get parsed "action"
        /\ float_field (get parsed "value") = Returns f
        /\ logs w' = (logs w ++ [ {| Log.device := Device.id d';
                                     Log.action := a;
                                     Log.value := f |} ])%list).
Proof.
  rewrite post_steps. cbv zeta.
  destruct (negb _).
  { intros [= <- <-]. left. repeat split. }
  destruct (parse _) as [parsed |] eqn:Hp.
  2:{ intros [= <- <-]. left. repeat split. }
  destruct (first _) as [device |] eqn:Ef.
  2:{ intros [= <- <-]. right. left. exists parsed.
      repeat split. intros d Hd Hu.
      apply first_none in Ef.
      pose proof (filter_nil_all _ _ d Ef Hd) as H. simpl in H.
      apply Z.eqb_eq in Hu. rewrite Hu, andb_true_r in H. exact H. }
  destruct (selected_inv _ _ _ _ Ef) as (Hin & Hu & Hm).
  destruct (apply_device_action _ _ _) as [r [d' w1]] eqn:Ea.
  destruct (apply_frame _ _ _ _ _ _ _ Ea) as [Hfr _].
  destruct r as [[[] m] | e]; [| | discriminate].
  - destruct (apply_success_inv _ _ _ _ _ _ _ Ea) as (_ & Hs & Hact).
    assert (Hd : devices w1 = write_row d' (devices w)) by (rewrite Hs; reflexivity).
    assert (Hl : logs w1 = logs w) by (rewrite Hs; reflexivity).
    assert (Hstr : exists a, get parsed "action" = VStr a).
    { destruct Hact as [[-> _] | [[-> _] | ([-> | ->] & _)]]; eauto. }
    destruct Hstr as [a Ha].
    rewrite log_action_cases.
    destruct (filter _ (devices w1)) as [| x [| y l]] eqn:Ef1.
    + exfalso.
      assert (H : In d' (filter (fun d => Device.id d =? Device.id d') (devices w1))).
      { apply filter_In. split; [rewrite Hd; apply write_row_has | apply Z.eqb_refl]. }
      now rewrite Ef1 in H.
    + assert (Hx : Device.id x = Device.id d').
      { assert (H : In x (filter (fun d => Device.id d =? Device.id d') (devices w1)))
          by (rewrite Ef1; now left).
        apply filter_In in H. now apply Z.eqb_eq. }
      rewrite Ha. simpl char_field. cbv iota.
      destruct (float_field _) as [f | e] eqn:Eff; [| discriminate].
      intros [= <- <-]. right. right. exists parsed, d', a, f. simpl.
      rewrite Hx, Hl, Hd, Ha.
      assert (Hn : Device.name d' = Device.name device)
        by (unfold frame in Hfr; congruence).
      rewrite (frame_user _ _ Hfr), Hn.
      repeat split; auto. apply write_row_has.
    + discriminate.
  - destruct (apply_failure_inv _ _ _ _ _ _ _ Ea) as [_ ->].
    intros [= <- <-]. left. repeat split.
Qed.

(** [parse_command_with_gemini] gives a dict only when a key is set and
    is not empty, the service replied, the cleaned reply holds a brace
    pair, and the text of the first pair decodes to that dict, which has
    "device_name" and "action". *)
Theorem parsed_command_comes_from_the_reply
  (command_text : value) (parsed : dict) :
  parse command_text = Some parsed ->
  exists key text json_text,
    GEMINI_API_KEY = Some key
    /\ key <> EmptyString
    /\ generate_content (Gemini.prompt command_text) = Some text
    /\ Gemini.re_search (Gemini.cleaned_text text) = Some json_text
    /\ json_loads json_text = Some parsed
    /\ contains parsed "device_name" = true
    /\ contains parsed "action" = true.
Proof.
  unfold Gemini.parse_command_with_gemini, Gemini.interpret.
  destruct GEMINI_API_KEY as [key |]; [| discriminate].
  destruct (String.eqb key EmptyString) eqn:Ek; [discriminate |].
  destruct (generate_content _) as [text |] eqn:Eg; [| discriminate].
  destruct (Gemini.re_search _) as [json_text |] eqn:Es; [| discriminate].
  destruct (json_loads json_text) as [p |] eqn:Ej; [| discriminate].
  destruct (contains p "device_name") eqn:E1; [| discriminate].
  destruct (contains p "action") eqn:E2; [| discriminate].
  intros [= <-]. exists key, text, json_text.
  apply String.eqb_neq in Ek. repeat split; auto.
Qed.

End Dispatch.

Lemma home_unique_keys : unique_keys home.
Proof.
  unfold unique_keys. simpl.
  repeat (constructor; [simpl; intuition discriminate |]). constructor.
Qed.

Lemma post_keeps_the_table_witness :
  let w' := snd (post api_key (service reply_fan_0) loads caseless
                   (command "set the fan speed to 0" 1) home) in
  map frame (devices w') = map frame (devices home)
  /\ unique_keys w'
  /\ (forall r, In r (devices home) -> Device.user r <> 1 -> In r (devices w')).
Proof.
  apply (post_keeps_the_table api_key (service reply_fan_0) loads caseless
           (command "set the fan speed to 0" 1) home).
  exact home_unique_keys.
Defined.

Lemma post_answers_witness :
  exists w' response,
    post api_key (service reply_kitchen) loads caseless
      (command "turn on the kitchen light" 1) home = (Returns response, w')
    /\ Response.status response = 404
    /\ devices w' = devices home.
Proof.
  eexists. eexists. split; [vm_compute; reflexivity |].
  split; [reflexivity |].
  destruct (post_answers api_key (service reply_kitchen) loads caseless
              (command "turn on the kitchen light" 1) home _ _ eq_refl)
    as [(H & _) | [(parsed & _ & _ & H & _) | (parsed & d' & a & f & _ & H & _)]].
  - discriminate H.
  - exact H.
  - discriminate H.
Defined.

Lemma parsed_command_comes_from_the_reply_witness :
  exists key text json_text,
    api_key = Some key
    /\ key <> EmptyString
    /\ service reply_fan_0 (Gemini.prompt (VStr "set the fan speed to 0")) = Some text
    /\ Gemini.re_search (Gemini.cleaned_text text) = Some json_text
    /\ loads json_text
       = Some [("device_name", VStr "fan"); ("action", VStr "set_speed");
               ("value", VInt 0)]
    /\ contains [("device_name", VStr "fan"); ("action", VStr "set_speed");
                 ("value", VInt 0)] "device_name" = true
    /\ contains [("device_name", VStr "fan"); ("action", VStr "set_speed");
                 ("value", VInt 0)] "action" = true.
Proof.
  apply (parsed_command_comes_from_the_reply api_key (service reply_fan_0) loads
           (VStr "set the fan speed to 0")).
  vm_compute. reflexivity.
Defined.

End AssistantProps.

(** ** More facts about text and the clean-up of the reply *)
Module MoreGeminiFacts.
Import Text Terms Invariants TextFacts Gemini GeminiFacts.

Lemma mem_char_append (c : ascii) (a b : string) :
  mem_char c (a ++ b) = mem_char c a || mem_char c b.
Proof.
  induction a as [| x a IH]; simpl; [reflexivity |].
  now rewrite IH, orb_assoc.
Qed.

Lemma mem_char_cons (c d : ascii) (s : string) :
  mem_char c (String d s) = Ascii.eqb c d || mem_char c s.
Proof. reflexivity. Qed.

Lemma upto_close_some (s m : string) :
  upto_close s = Some m ->
  exists body post,
    s = body ++ "}" ++ post /\ m = body ++ "}" /\ mem_char "}" body = false.
Proof.
  revert m. induction s as [| c s IH]; intros m; simpl; [discriminate |].
  destruct (Ascii.eqb c "}") eqn:E.
  - apply Ascii.eqb_eq in E. subst c. intros [= <-].
    exists EmptyString, s. now repeat split.
  - destruct (upto_close s) as [m' |]; [| discriminate].
    intros [= <-]. destruct (IH m' eq_refl) as (body & post & -> & -> & Hb).
    exists (String c body), post. repeat split.
    rewrite mem_char_cons, Hb, orb_false_r, Ascii.eqb_sym. exact E.
Qed.

Lemma upto_close_first (body post : string) :
  mem_char "}" body = false ->
  upto_close (body ++ String "}" post) = Some (body ++ "}").
Proof.
  induction body as [| c body IH]; [reflexivity |].
  rewrite mem_char_cons. intros H.
  apply orb_false_elim in H. destruct H as [Hc Hb].
  change (upto_close (String c body ++ String "}" post))
    with (if Ascii.eqb c "}" then Some "}"
          else match upto_close (body ++ String "}" post) with
               | Some m => Some (String c m)
               | None => None
               end).
  rewrite Ascii.eqb_sym, Hc, (IH Hb). reflexivity.
Qed.

Lemma upto_close_found (a b : string) : upto_close (a ++ String "}" b) <> None.
Proof.
  induction a as [| c a IH].
  - simpl. discriminate.
  - change (upto_close (String c a ++ String "}" b))
      with (if Ascii.eqb c "}" then Some "}"
            else match upto_close (a ++ String "}" b) with
                 | Some m => Some (String c m)
                 | None => None
                 end).
    destruct (Ascii.eqb c "}"); [discriminate |].
    destruct (upto_close (a ++ String "}" b)); [discriminate | contradiction].
Qed.

Lemma re_search_some (s m : string) :
  re_search s = Some m ->
  exists pre body post,
    s = pre ++ "{" ++ body ++ "}" ++ post
    /\ m = "{" ++ body ++ "}"
    /\ mem_char "{" pre = false
    /\ mem_char "}" body = false.
Proof.
  revert m. induction s as [| c s IH]; intros m; simpl; [discriminate |].
  destruct (Ascii.eqb c "{") eqn:E.
  - apply Ascii.eqb_eq in E. subst c.
    destruct (upto_close s) as [m' |] eqn:Eu; [| discriminate].
    intros [= <-].
    destruct (upto_close_some _ _ Eu) as (body & post & -> & -> & Hb).
    exists EmptyString, body, post. now repeat split.
  - intros H. destruct (IH m H) as (pre & body & post & -> & -> & Hp & Hb).
    exists (String c pre), body, post. repeat split; auto.
    rewrite mem_char_cons, Hp, orb_false_r, Ascii.eqb_sym. exact E.
Qed.

Lemma re_search_cons (c : ascii) (s : string) :
  re_search (String c s) =
    if Ascii.eqb c "{" then
      match upto_close s with Some m => Some (String c m) | None => None end
    else re_search s.
Proof. reflexivity. Qed.

Lemma re_search_first (pre body post : string) :
  mem_char "{" pre = false -> mem_char "}" body = false ->
  re_search (pre ++ "{" ++ body ++ "}" ++ post) = Some ("{" ++ body ++ "}").
Proof.
  intros Hp Hb. induction pre as [| c pre IH].
  - change (EmptyString ++ "{" ++ body ++ "}" ++ post)
      with (String "{" (body ++ String "}" post)).
    rewrite re_search_cons, (upto_close_first body post Hb). reflexivity.
  - rewrite mem_char_cons in Hp. apply orb_false_elim in Hp.
    destruct Hp as [Hc Hp].
    change (String c pre ++ "{" ++ body ++ "}" ++ post)
      with (String c (pre ++ "{" ++ body ++ "}" ++ post)).
    rewrite re_search_cons, Ascii.eqb_sym, Hc. now apply IH.
Qed.

Lemma re_search_found (pre mid post : string) :
  re_search (pre ++ "{" ++ mid ++ "}" ++ post) <> None.
Proof.
  induction pre as [| c pre IH].
  - change (EmptyString ++ "{" ++ mid ++ "}" ++ post)
      with (String "{" (mid ++ String "}" post)).
    rewrite re_search_cons. simpl.
    pose proof (upto_close_found mid post) as H.
    destruct (upto_close (mid ++ String "}" post)); [discriminate | contradiction].
  - change (String c pre ++ "{" ++ mid ++ "}" ++ post)
      with (String c (pre ++ "{" ++ mid ++ "}" ++ post)).
    rewrite re_search_cons.
    destruct (Ascii.eqb c "{"); [| exact IH].
    pose proof (upto_close_found (pre ++ "{" ++ mid) post) as H.
    rewrite append_assoc in H.
    change (("{" ++ mid) ++ String "}" post) with ("{" ++ mid ++ "}" ++ post) in H.
    destruct (upto_close _); [discriminate | contradiction].
Qed.

(** *** Whitespace at both ends *)

Lemma lstrip_idempotent (s : string) : lstrip (lstrip s) = lstrip s.
Proof.
  unfold lstrip. induction s as [| c s IH]; simpl; [reflexivity |].
  destruct (isspace c) eqn:E; [exact IH |]. simpl. now rewrite E.
Qed.

Lemma rstrip_idempotent (s : string) : rstrip (rstrip s) = rstrip s.
Proof.
  unfold rstrip. induction s as [| c s IH]; simpl; [reflexivity |].
  destruct (rstrip_by isspace s) as [| y r] eqn:E.
  - destruct (isspace c) eqn:Ec; [reflexivity |]. simpl. now rewrite Ec.
  - change (rstrip_by isspace (String c (String y r)))
      with (match rstrip_by isspace (String y r) with
            | EmptyString => if isspace c then EmptyString else String c EmptyString
            | r' => String c r'
            end).
    now rewrite IH.
Qed.

Lemma strip_commutes (s : string) : rstrip (lstrip s) = lstrip (rstrip s).
Proof.
  unfold lstrip, rstrip. induction s as [| c s IH]; simpl; [reflexivity |].
  destruct (isspace c) eqn:Ec.
  - rewrite IH. destruct (rstrip_by isspace s) as [| y r]; simpl;
      rewrite ?Ec; reflexivity.
  - simpl. destruct (rstrip_by isspace s) as [| y r]; simpl;
      rewrite ?Ec; reflexivity.
Qed.

Lemma strip_idempotent (s : string) : strip (strip s) = strip s.
Proof.
  unfold strip.
  now rewrite (strip_commutes (rstrip s)), rstrip_idempotent, lstrip_idempotent.
Qed.

Lemma strip_spaces_before (ws s : string) : spaces ws -> strip (ws ++ s) = strip s.
Proof.
  intros H. unfold strip.
  now rewrite <- !strip_commutes, lstrip_app, H.
Qed.

Lemma strip_spaces_after (s ws : string) : spaces ws -> strip (s ++ ws) = strip s.
Proof. intros H. unfold strip. now rewrite rstrip_app_spaces. Qed.

(** A text is whitespace followed by its left-stripped part. *)
Lemma lstrip_split (s : string) : exists t, spaces t /\ s = t ++ lstrip s.
Proof.
  unfold lstrip. induction s as [| c s (t & Ht & IH)]; simpl.
  - now exists EmptyString.
  - destruct (isspace c) eqn:E.
    + exists (String c t). simpl. rewrite E, Ht. split; [reflexivity |].
      now rewrite IH at 1.
    + now exists EmptyString.
Qed.

(** *** Occurrences *)

Lemma startswith_shorter (a b s : string) :
  startswith (a ++ b) s = true -> startswith a s = true.
Proof.
  revert s. induction a as [| x a IH]; intros s; simpl.
  - now destruct s.
  - destruct s as [| y s]; [discriminate |].
    intros H. apply andb_prop in H. destruct H as [H1 H2].
    now rewrite H1, (IH s H2).
Qed.

Lemma occurs_shorter (a b s : string) :
  occurs a s = false -> occurs (a ++ b) s = false.
Proof.
  induction s as [| c s IH]; simpl.
  - rewrite !orb_false_r. intros H.
    destruct (startswith (a ++ b) EmptyString) eqn:E; [| reflexivity].
    apply startswith_shorter in E. congruence.
  - intros H. apply orb_false_elim in H. destruct H as [H1 H2].
    rewrite (IH H2), orb_false_r.
    destruct (startswith (a ++ b) (String c s)) eqn:E; [| reflexivity].
    apply startswith_shorter in E. congruence.
Qed.

Lemma occurs_append_left (lit a b : string) :
  occurs lit (a ++ b) = false -> occurs lit a = false.
Proof.
  induction a as [| c a IH]; simpl.
  - intros H. rewrite orb_false_r.
    destruct (startswith lit EmptyString) eqn:E; [| reflexivity].
    destruct lit; [| discriminate]. now destruct b.
  - intros H. apply orb_false_elim in H. destruct H as [H1 H2].
    rewrite (IH H2), orb_false_r.
    destruct (startswith lit (String c a)) eqn:E; [| reflexivity].
    apply (startswith_weaken _ _ b) in E. simpl in E. congruence.
Qed.

Lemma occurs_append_right (lit a b : string) :
  occurs lit (a ++ b) = false -> occurs lit b = false.
Proof.
  induction a as [| c a IH]; simpl; [trivial |].
  intros H. apply orb_false_elim in H. destruct H as [_ H]. now apply IH.
Qed.

Lemma occurs_strip (lit s : string) :
  occurs lit s = false -> occurs lit (strip s) = false.
Proof.
  intros H. unfold strip.
  destruct (rstrip_split s) as (t & _ & Hs).
  destruct (lstrip_split (rstrip s)) as (u & _ & Hr).
  rewrite Hs in H. apply occurs_append_left in H.
  rewrite Hr in H. now apply occurs_append_right in H.
Qed.

(** Where the literal does not occur, nothing is removed. *)
Lemma re_sub_absent (lit s : string) :
  lit <> EmptyString -> occurs lit s = false -> re_sub lit s = s.
Proof.
  intros Hlit. induction s as [| c s IH]; simpl; intros H.
  - rewrite re_sub_eq by exact Hlit.
    apply orb_false_elim in H. destruct H as [H _]. now rewrite H.
  - apply orb_false_elim in H. destruct H as [H1 H2].
    rewrite re_sub_eq by exact Hlit. now rewrite H1, (IH H2).
Qed.

Lemma no_backtick_no_fence (lit s : string) :
  mem_char "`" s = false -> occurs (String "`" lit) s = false.
Proof.
  induction s as [| c s IH]; [reflexivity |].
  rewrite mem_char_cons. intros H.
  apply orb_false_elim in H. destruct H as [H1 H2].
  change (occurs (String "`" lit) (String c s))
    with (Ascii.eqb "`" c && startswith lit s || occurs (String "`" lit) s).
  now rewrite H1, (IH H2).
Qed.

(** *** The text left by [re_sub] holds no fence *)

Lemma re_sub_head (s : string) :
  starts_with_backtick s = false ->
  starts_with_backtick (re_sub fence s) = false.
Proof.
  intros H. rewrite re_sub_eq by exact fence_nonempty.
  destruct s as [| c s]; [reflexivity |].
  change (Ascii.eqb "`" c = false) in H.
  unfold fence.
  change (startswith "```" (String c s))
    with (Ascii.eqb "`" c && startswith "``" s).
  rewrite H. exact H.
Qed.

Lemma startswith_two (c : ascii) (s : string) :
  startswith "``" (String c s) = Ascii.eqb "`" c && starts_with_backtick s.
Proof.
  change (startswith "``" (String c s))
    with (Ascii.eqb "`" c && startswith "`" s).
  f_equal. destruct s as [| d s]; [reflexivity |].
  change (startswith "`" (String d s)) with (Ascii.eqb "`" d && true).
  apply andb_true_r.
Qed.

Lemma re_sub_two (s : string) :
  startswith "``" s = false -> startswith "``" (re_sub fence s) = false.
Proof.
  intros H. rewrite re_sub_eq by exact fence_nonempty.
  destruct s as [| c s]; [reflexivity |].
  unfold fence.
  change (startswith "```" (String c s))
    with (Ascii.eqb "`" c && startswith "``" s).
  rewrite startswith_two in H.
  destruct (Ascii.eqb "`" c) eqn:Ec.
  - rewrite andb_true_l in H.
    assert (H2 : startswith "``" s = false).
    { destruct s as [| d s]; [reflexivity |].
      rewrite startswith_two.
      change (Ascii.eqb "`" d = false) in H. now rewrite H. }
    rewrite H2, andb_true_l, startswith_two, Ec, andb_true_l.
    exact (re_sub_head s H).
  - rewrite andb_false_l, startswith_two, Ec. reflexivity.
Qed.

Lemma re_sub_fence_free (n : nat) :
  forall s, (String.length s <= n)%nat -> occurs fence (re_sub fence s) = false.
Proof.
  induction n as [| n IH]; intros s Hn.
  - destruct s; [reflexivity | simpl in Hn; lia].
  - rewrite re_sub_eq by exact fence_nonempty.
    destruct (startswith fence s) eqn:E.
    + apply IH.
      pose proof (startswith_length _ _ E) as Hl.
      pose proof (lstrip_length (drop (String.length fence) s)) as Hs.
      rewrite drop_length in Hs.
      change (String.length fence) with 3%nat in *. lia.
    + destruct s as [| c s]; [reflexivity |].
      simpl in Hn.
      change (occurs fence (String c (re_sub fence s)))
        with (startswith fence (String c (re_sub fence s))
              || occurs fence (re_sub fence s)).
      rewrite (IH s) by lia.
      rewrite orb_false_r. unfold fence in *.
      change (startswith "```" (String c s))
        with (Ascii.eqb "`" c && startswith "``" s) in E.
      change (startswith "```" (String c (re_sub "```" s)))
        with (Ascii.eqb "`" c && startswith "``" (re_sub "```" s)).
      destruct (Ascii.eqb "`" c); [| reflexivity].
      rewrite andb_true_l in *. now apply re_sub_two.
Qed.

Lemma cleaned_text_fence_free (text : string) :
  occurs fence (cleaned_text text) = false.
Proof.
  unfold cleaned_text. apply occurs_strip.
  now apply (re_sub_fence_free _ _ (le_n _)).
Qed.

Lemma cleaned_text_stripped (text : string) :
  strip (cleaned_text text) = cleaned_text text.
Proof. unfold cleaned_text. apply strip_idempotent. Qed.

Lemma cleaned_text_again (text : string) :
  cleaned_text (cleaned_text text) = cleaned_text text.
Proof.
  pose proof (cleaned_text_fence_free text) as Hf.
  pose proof (cleaned_text_stripped text) as Hs.
  unfold cleaned_text at 1. rewrite Hs.
  rewrite (re_sub_absent fence_json) by
    (exact fence_json_nonempty || exact (occurs_shorter fence "json" _ Hf)).
  rewrite (re_sub_absent fence) by (exact fence_nonempty || exact Hf).
  exact Hs.
Qed.

Lemma mem_char_strip (c : ascii) (s : string) :
  mem_char c s = false -> mem_char c (strip s) = false.
Proof.
  intros H. unfold strip.
  destruct (rstrip_split s) as (t & _ & Hs).
  destruct (lstrip_split (rstrip s)) as (u & _ & Hr).
  rewrite Hs, mem_char_append in H. apply orb_false_elim in H.
  destruct H as [H _]. rewrite Hr, mem_char_append in H.
  apply orb_false_elim in H. now destruct H.
Qed.

Lemma cleaned_text_plain (text : string) :
  mem_char "`" text = false -> cleaned_text text = strip text.
Proof.
  intros H. apply mem_char_strip in H.
  unfold cleaned_text.
  rewrite (re_sub_absent fence_json) by
    (exact fence_json_nonempty || exact (no_backtick_no_fence _ _ H)).
  rewrite (re_sub_absent fence) by
    (exact fence_nonempty || exact (no_backtick_no_fence _ _ H)).
  apply strip_idempotent.
Qed.

(** *** Plain fences *)

(** Whitespace starts no fence. *)
Lemma re_sub_spaces_before (lit ws s : string) :
  spaces ws ->
  re_sub (String "`" lit) (ws ++ s) = ws ++ re_sub (String "`" lit) s.
Proof.
  intros H. induction ws as [| c ws IH]; [reflexivity |].
  simpl in H. apply andb_prop in H. destruct H as [Hc Hws].
  rewrite re_sub_eq by discriminate.
  change (String c ws ++ s) with (String c (ws ++ s)).
  rewrite space_not_backtick by exact Hc. now rewrite (IH Hws).
Qed.

Lemma re_sub_json_plain_fence (c : ascii) (s : string) :
  isspace c = true ->
  re_sub fence_json (fence ++ String c s)
  = fence ++ re_sub fence_json (String c s).
Proof.
  intros Hc.
  assert (Hj : Ascii.eqb "j" c = false) by (apply eqb_space_false; auto).
  assert (Hb : Ascii.eqb "`" c = false) by (apply eqb_space_false; auto).
  unfold fence, fence_json.
  rewrite (re_sub_eq "```json" ("```" ++ String c s)) by discriminate.
  change (startswith "```json" ("```" ++ String c s))
    with (Ascii.eqb "j" c && startswith "son" s).
  rewrite Hj. simpl andb. cbv iota.
  change ("```" ++ String c s) with (String "`" ("``" ++ String c s)).
  cbv iota. f_equal.
  rewrite (re_sub_eq "```json" ("``" ++ String c s)) by discriminate.
  change (startswith "```json" ("``" ++ String c s))
    with (Ascii.eqb "`" c && startswith "json" s).
  rewrite Hb. simpl andb. cbv iota.
  change ("``" ++ String c s) with (String "`" ("`" ++ String c s)).
  cbv iota. f_equal.
  rewrite (re_sub_eq "```json" ("`" ++ String c s)) by discriminate.
  change (startswith "```json" ("`" ++ String c s))
    with (Ascii.eqb "`" c && startswith "`json" s).
  rewrite Hb. reflexivity.
Qed.

Lemma cleaned_text_plain_fenced (T ws1 ws2 : string) :
  spaces ws1 -> ws1 <> EmptyString -> spaces ws2 ->
  cleaned_text (plain_fenced ws1 T ws2) = cleaned_text T.
Proof.
  intros H1 Hne H2. unfold cleaned_text, plain_fenced.
  assert (Hstrip : strip (fence ++ ws1 ++ T ++ ws2 ++ fence)
                   = fence ++ ws1 ++ T ++ ws2 ++ fence).
  { unfold strip.
    replace (fence ++ ws1 ++ T ++ ws2 ++ fence)
      with ((fence ++ ws1 ++ T ++ ws2) ++ fence)
      by now rewrite !append_assoc.
    rewrite rstrip_fixed_app by (discriminate || reflexivity).
    reflexivity. }
  rewrite Hstrip.
  destruct ws1 as [| c ws1]; [contradiction |].
  pose proof H1 as H1'. simpl in H1'. apply andb_prop in H1'.
  destruct H1' as [Hc _].
  change (String c ws1 ++ T ++ ws2 ++ fence)
    with (String c (ws1 ++ T ++ ws2 ++ fence)).
  rewrite (re_sub_json_plain_fence c _ Hc).
  change (String c (ws1 ++ T ++ ws2 ++ fence))
    with (String c ws1 ++ T ++ ws2 ++ fence).
  unfold fence_json at 1.
  rewrite (re_sub_spaces_before _ _ _ H1).
  destruct (lstrip_split (T ++ ws2 ++ fence)) as (lead & Hlead & Hsplit).
  destruct (lstrip_before_fence T ws2 H2) as (ws & Hws & Hl).
  rewrite Hl in Hsplit. rewrite Hsplit.
  rewrite (re_sub_spaces_before _ _ _ Hlead).
  fold fence_json.
  destruct (re_sub_json_before_fence _ (strip T) ws (le_n _) Hws)
    as (ws' & Hws' & ->).
  set (Z := re_sub fence_json (strip T) ++ ws' ++ fence).
  rewrite (re_sub_eq fence (fence ++ _)) by exact fence_nonempty.
  rewrite startswith_app, drop_app.
  rewrite <- append_assoc, lstrip_app.
  rewrite all_chars_append, H1, Hlead. simpl andb. cbv iota.
  destruct (lstrip_split Z) as (lead2 & Hlead2 & HZ).
  transitivity (strip (re_sub fence Z)).
  - rewrite HZ at 2. unfold fence at 2.
    rewrite (re_sub_spaces_before _ _ _ Hlead2).
    now rewrite strip_spaces_before.
  - unfold Z.
    destruct (re_sub_fence_before_fence _ (re_sub fence_json (strip T)) ws'
                (le_n _) Hws') as (ws'' & Hws'' & ->).
    now rewrite strip_spaces_after.
Qed.

End MoreGeminiFacts.

(** ** The interpreter *)
Module InterpreterProps.
Import Py Text Terms Invariants Fixtures TextFacts Gemini GeminiFacts MoreGeminiFacts.

(** [re_search] gives exactly the first brace pair: the text found runs
    from the first opening brace to the first closing brace after it, so
    it holds one closing brace, its last character. *)
Theorem re_search_is_the_first_pair (s m : string) :
  re_search s = Some m <->
  exists pre body post,
    s = pre ++ "{" ++ body ++ "}" ++ post
    /\ m = "{" ++ body ++ "}"
    /\ mem_char "{" pre = false
    /\ mem_char "}" body = false.
Proof.
  split.
  - apply re_search_some.
  - intros (pre & body & post & -> & -> & Hp & Hb). now apply re_search_first.
Qed.

(** [re_search] finds nothing exactly when no opening brace of the text
    has a closing brace after it. *)
Theorem re_search_none_iff (s : string) :
  re_search s = None <->
  forall pre mid post, s <> pre ++ "{" ++ mid ++ "}" ++ post.
Proof.
  split.
  - intros H pre mid post ->. now apply (re_search_found pre mid post).
  - intros H. destruct (re_search s) as [m |] eqn:E; [| reflexivity].
    destruct (re_search_some _ _ E) as (pre & body & post & Hs & _).
    now apply H in Hs.
Qed.

(** An object that holds an object is cut at the closing brace of the
    inner one: what is handed to the decoder is not the whole object. *)
Theorem nested_object_is_cut (pre a b rest : string) :
  mem_char "{" pre = false ->
  mem_char "}" a = false ->
  mem_char "}" b = false ->
  re_search (pre ++ "{" ++ a ++ "{" ++ b ++ "}" ++ rest)
  = Some ("{" ++ a ++ "{" ++ b ++ "}").
Proof.
  intros Hp Ha Hb.
  replace (pre ++ "{" ++ a ++ "{" ++ b ++ "}" ++ rest)
    with (pre ++ "{" ++ (a ++ "{" ++ b) ++ "}" ++ rest)
    by (now rewrite !append_assoc).
  replace ("{" ++ a ++ "{" ++ b ++ "}")
    with ("{" ++ (a ++ "{" ++ b) ++ "}")
    by (now rewrite !append_assoc).
  apply re_search_first; [exact Hp |].
  rewrite mem_char_append, Ha.
  change ("{" ++ b) with (String "{" b). rewrite mem_char_cons, Hb.
  reflexivity.
Qed.

Lemma nested_object_is_cut_witness :
  re_search ("Here: " ++ "{" ++ (quoted "action" ++ ": " ++ quoted "turn_on"
                                  ++ ", " ++ quoted "device" ++ ": ")
             ++ "{" ++ (quoted "name" ++ ": " ++ quoted "fan") ++ "}" ++ "}")
  = Some ("{" ++ (quoted "action" ++ ": " ++ quoted "turn_on"
                  ++ ", " ++ quoted "device" ++ ": ")
          ++ "{" ++ (quoted "name" ++ ": " ++ quoted "fan") ++ "}").
Proof.
  apply (nested_object_is_cut "Here: "
           (quoted "action" ++ ": " ++ quoted "turn_on"
            ++ ", " ++ quoted "device" ++ ": ")
           (quoted "name" ++ ": " ++ quoted "fan") "}");
    reflexivity.
Defined.

(** The cleaned text of a reply holds no code fence, and neither starts
    nor ends with whitespace. *)
Theorem cleaned_text_has_no_fence (text : string) :
  occurs fence (cleaned_text text) = false
  /\ occurs fence_json (cleaned_text text) = false
  /\ strip (cleaned_text text) = cleaned_text text.
Proof.
  split; [apply cleaned_text_fence_free |].
  split; [| apply cleaned_text_stripped].
  exact (occurs_shorter fence "json" _ (cleaned_text_fence_free text)).
Qed.

(** Cleaning is idempotent: a cleaned text is cleaned to itself, and is
    interpreted as the reply it came from, whatever the decoder. *)
Theorem cleaning_twice_changes_nothing
  (json_loads : string -> option dict) (text : string) :
  cleaned_text (cleaned_text text) = cleaned_text text
  /\ interpret json_loads (cleaned_text text) = interpret json_loads text.
Proof.
  split; [apply cleaned_text_again |].
  unfold interpret. now rewrite cleaned_text_again.
Qed.

(** A reply without a backtick is only stripped of the whitespace at its
    ends. *)
Theorem reply_without_backticks_is_only_stripped (text : string) :
  mem_char "`" text = false -> cleaned_text text = strip text.
Proof. apply cleaned_text_plain. Qed.

Lemma reply_without_backticks_is_only_stripped_witness :
  cleaned_text (nl ++ "  " ++ reply_fan_0 ++ nl)
  = strip (nl ++ "  " ++ reply_fan_0 ++ nl).
Proof.
  apply (reply_without_backticks_is_only_stripped
           (nl ++ "  " ++ reply_fan_0 ++ nl)).
  reflexivity.
Defined.

(** A reply between two plain fences, the opening one followed by
    whitespace (a line break, say), is cleaned to the same text as the
    reply alone, and so interpreted alike, whatever the decoder. *)
Theorem plain_fenced_reply_is_interpreted_alike
  (json_loads : string -> option dict) (T ws1 ws2 : string) :
  spaces ws1 -> ws1 <> EmptyString -> spaces ws2 ->
  cleaned_text (plain_fenced ws1 T ws2) = cleaned_text T
  /\ interpret json_loads (plain_fenced ws1 T ws2) = interpret json_loads T.
Proof.
  intros H1 Hne H2. unfold interpret.
  rewrite (cleaned_text_plain_fenced T ws1 ws2 H1 Hne H2). now split.
Qed.

Lemma plain_fenced_reply_is_interpreted_alike_witness :
  cleaned_text (plain_fenced nl reply_fan_0 nl) = cleaned_text reply_fan_0
  /\ interpret loads (plain_fenced nl reply_fan_0 nl)
     = interpret loads reply_fan_0.
Proof.
  apply (plain_fenced_reply_is_interpreted_alike loads reply_fan_0 nl nl);
    [reflexivity | discriminate | reflexivity].
Defined.

End InterpreterProps.

(** ** The device viewset *)
Module DeviceViewSetProps.
Import Py Orm Logger Views Terms Invariants ViewFacts MoreViewFacts Fixtures.
Import DeviceViewSet.

Lemma filter_append {A} (p : A -> bool) (a b : list A) :
  filter p (a ++ b)%list = (filter p a ++ filter p b)%list.
Proof.
  induction a as [| x a IH]; simpl; [reflexivity |].
  destruct (p x); simpl; now rewrite IH.
Qed.

Lemma NoDup_snoc {A} (l : list A) (a : A) :
  NoDup l -> ~ In a l -> NoDup (l ++ [a])%list.
Proof.
  induction l as [| x l IH]; simpl; intros Hnd Hin.
  - constructor; [intros [] | constructor].
  - inversion Hnd as [| ? ? Hx Hl]; subst. constructor.
    + rewrite in_app_iff. simpl. intros [H | [H | []]]; [now apply Hx |].
      apply Hin. now left.
    + apply IH; [exact Hl |]. intros H. apply Hin. now right.
Qed.

(** The device [perform_create] makes belongs to the requesting user,
    whatever the body said; it is added at the end of the list of that
    user and the lists of the other users are what they were; with a
    key that is new, the keys stay unique. *)
Theorem created_device_is_listed_for_its_creator_only
  (request : Request.t) (data : validated_data) (pk : Z) (w : world) :
  unique_keys w ->
  (forall r, In r (devices w) -> Device.id r <> pk) ->
  exists d w',
    perform_create request data pk w = (Returns d, w')
    /\ Device.id d = pk
    /\ Device.user d = Request.user request
    /\ get_queryset request w' = (get_queryset request w ++ [d])%list
    /\ (forall other, Request.user other <> Request.user request ->
                      get_queryset other w' = get_queryset other w)
    /\ logs w' = logs w
    /\ unique_keys w'.
Proof.
  intros Hnd Hfresh. eexists. eexists.
  split; [reflexivity |]. simpl.
  split; [reflexivity |]. split; [reflexivity |].
  unfold get_queryset, unique_keys in *. simpl.
  split; [| split; [| split]].
  - rewrite filter_append. simpl. now rewrite Z.eqb_refl.
  - intros other Hne. rewrite filter_append. simpl.
    apply Z.eqb_neq in Hne. rewrite Z.eqb_sym in Hne. rewrite Hne.
    apply app_nil_r.
  - reflexivity.
  - rewrite map_app. simpl. apply NoDup_snoc; [exact Hnd |].
    intros Hin. apply in_map_iff in Hin. destruct Hin as (r & Hk & Hr).
    exact (Hfresh r Hr Hk).
Qed.

Lemma created_device_is_listed_for_its_creator_only_witness :
  exists d w',
    perform_create {| Request.user := 2; Request.data := [] |}
      (mkData "Heater" "ac" None) 5 home = (Returns d, w')
    /\ Device.id d = 5
    /\ Device.user d = 2
    /\ get_queryset {| Request.user := 2; Request.data := [] |} w'
       = (get_queryset {| Request.user := 2; Request.data := [] |} home
          ++ [d])%list
    /\ (forall other, Request.user other <> 2 ->
                      get_queryset other w' = get_queryset other home)
    /\ logs w' = logs home
    /\ unique_keys w'.
Proof.
  apply (created_device_is_listed_for_its_creator_only
           {| Request.user := 2; Request.data := [] |}
           (mkData "Heater" "ac" None) 5 home).
  - unfold unique_keys. simpl.
    repeat (constructor; [simpl; intuition discriminate |]). constructor.
  - simpl. intros r [<- | [<- | [<- | [<- | []]]]]; discriminate.
Defined.

End DeviceViewSetProps.
